(** * PSRP connection plugins: a shallow embedding of [_psrp_base.py],
      [psrp_winrm.py] and [psrp_local.py], and the properties of the
      command executor, the host callback sink, the lazy runspace
      accessor and the WinRM connection-info resolver. *)

From Stdlib Require Import List ZArith NArith Bool String Ascii Lia.
Import ListNotations.

(** ** Python values used by the plugins *)

(** A Python [str] is a sequence of Unicode code points, a [bytes] object
    a sequence of octets. *)
Definition pystr := list N.
Definition bytes := list N.

(** An ASCII literal of the source, as a [pystr]. *)
Definition lit (s : string) : pystr :=
  map N_of_ascii (list_ascii_of_string s).

Definition NL : N := 10.

Definition pystr_eqb (a b : pystr) : bool :=
  if list_eq_dec N.eq_dec a b then true else false.

(** [sep.join(parts)] *)
Fixpoint join (sep : pystr) (parts : list pystr) : pystr :=
  match parts with
  | [] => []
  | [p] => p
  | p :: rest => p ++ sep ++ join sep rest
  end.

Local Open Scope N_scope.

Definition between (lo hi c : N) : bool := (lo <=? c) && (c <=? hi).

(** *** [bytes.decode()]: strict UTF-8 *)

Definition is_cont (b : N) : bool := between 128 191 b.

Fixpoint utf8_decode (bs : bytes) : option pystr :=
  match bs with
  | [] => Some []
  | b0 :: r0 =>
    if b0 <? 128 then option_map (cons b0) (utf8_decode r0)
    else if between 194 223 b0 then
      match r0 with
      | b1 :: r1 =>
        if is_cont b1
        then option_map (cons ((b0 - 192) * 64 + (b1 - 128))) (utf8_decode r1)
        else None
      | _ => None
      end
    else if between 224 239 b0 then
      match r0 with
      | b1 :: b2 :: r2 =>
        if between (if b0 =? 224 then 160 else 128)
                   (if b0 =? 237 then 159 else 191) b1 && is_cont b2
        then option_map
               (cons ((b0 - 224) * 4096 + (b1 - 128) * 64 + (b2 - 128)))
               (utf8_decode r2)
        else None
      | _ => None
      end
    else if between 240 244 b0 then
      match r0 with
      | b1 :: b2 :: b3 :: r3 =>
        if between (if b0 =? 240 then 144 else 128)
                   (if b0 =? 244 then 143 else 191) b1
           && is_cont b2 && is_cont b3
        then option_map
               (cons ((b0 - 240) * 262144 + (b1 - 128) * 4096
                      + (b2 - 128) * 64 + (b3 - 128)))
               (utf8_decode r3)
        else None
      | _ => None
      end
    else None
  end.

(** *** [str.encode()]: strict UTF-8; a lone surrogate cannot be encoded *)

Definition utf8_char (c : N) : option bytes :=
  if c <? 128 then Some [c]
  else if c <? 2048 then Some [192 + c / 64; 128 + c mod 64]
  else if between 55296 57343 c then None
  else if c <? 65536 then
    Some [224 + c / 4096; 128 + (c / 64) mod 64; 128 + c mod 64]
  else if c <? 1114112 then
    Some [240 + c / 262144; 128 + (c / 4096) mod 64;
          128 + (c / 64) mod 64; 128 + c mod 64]
  else None.

Fixpoint utf8_encode (s : pystr) : option bytes :=
  match s with
  | [] => Some []
  | c :: r =>
    match utf8_char c, utf8_encode r with
    | Some b, Some bs => Some (b ++ bs)
    | _, _ => None
    end
  end.

(** *** [bytes.decode("utf-16-le")], strict *)

Fixpoint code_units (bs : bytes) : option (list N) :=
  match bs with
  | [] => Some []
  | lo :: hi :: r => option_map (cons (lo + 256 * hi)) (code_units r)
  | [_] => None
  end.

Fixpoint utf16_chars (us : list N) : option pystr :=
  match us with
  | [] => Some []
  | u :: r =>
    if between 55296 56319 u then
      match r with
      | l :: r' =>
        if between 56320 57343 l
        then option_map
               (cons (65536 + (u - 55296) * 1024 + (l - 56320)))
               (utf16_chars r')
        else None
      | [] => None
      end
    else if between 56320 57343 u then None
    else option_map (cons u) (utf16_chars r)
  end.

Definition utf16le_decode (bs : bytes) : option pystr :=
  match code_units bs with
  | Some us => utf16_chars us
  | None => None
  end.

(** *** [base64.b64decode]

    The decoder is only ever applied to group 1 of [_COMMAND_PATTERN],
    which is made of whole groups of four characters with the padding, if
    any, in the last group; on such input the lenient and the validating
    decoders of the standard library agree, and that common behaviour is
    what is written here.  Anything else is rejected. *)

Definition is_b64 (c : N) : bool :=
  between 65 90 c || between 97 122 c || between 48 57 c
  || (c =? 43) || (c =? 47).

Definition PAD : N := 61.

Definition b64_val (c : N) : N :=
  if between 65 90 c then c - 65
  else if between 97 122 c then c - 71
  else if between 48 57 c then c + 4
  else if c =? 43 then 62
  else 63.

Fixpoint b64decode (s : pystr) : option bytes :=
  match s with
  | [] => Some []
  | a :: b :: c :: d :: r =>
    if is_b64 a && is_b64 b then
      let n := b64_val a * 64 + b64_val b in
      if is_b64 c && is_b64 d then
        let m := (n * 64 + b64_val c) * 64 + b64_val d in
        option_map
          (fun t => m / 65536 :: (m / 256) mod 256 :: m mod 256 :: t)
          (b64decode r)
      else if is_b64 c && (d =? PAD) then
        match r with
        | [] => let m := n * 64 + b64_val c in
                Some [m / 1024; (m / 4) mod 256]
        | _ => None
        end
      else if (c =? PAD) && (d =? PAD) then
        match r with
        | [] => Some [n / 16]
        | _ => None
        end
      else None
    else None
  | _ => None
  end.

(** ** [_COMMAND_PATTERN]

    [-EncodedCommand ((?:[A-Za-z0-9+/]{4})*(?:[A-Za-z0-9+/]{2}==|[A-Za-z0-9+/]{3}=)?)$]
    as the backtracking matcher of [re] runs it. *)

Definition orelse {A} (x y : option A) : option A :=
  match x with Some _ => x | None => y end.

(** The literal prefix of the pattern. *)
Definition KEYWORD : pystr := Eval cbv in lit "-EncodedCommand ".

Fixpoint strip_prefix (p s : pystr) : option pystr :=
  match p, s with
  | [], _ => Some s
  | x :: p', y :: s' => if x =? y then strip_prefix p' s' else None
  | _ :: _, [] => None
  end.

(** [$] without [re.MULTILINE]: the end of the string, or the position
    just before a newline that is the last character of the string. *)
Definition at_dollar (s : pystr) : bool :=
  match s with
  | [] => true
  | [c] => c =? NL
  | _ => false
  end.

(** [[A-Za-z0-9+/]{2}==] *)
Definition pad2 (s : pystr) : option pystr :=
  match s with
  | a :: b :: c :: d :: r =>
    if is_b64 a && is_b64 b && (c =? PAD) && (d =? PAD) then Some r else None
  | _ => None
  end.

(** [[A-Za-z0-9+/]{3}=] *)
Definition pad1 (s : pystr) : option pystr :=
  match s with
  | a :: b :: c :: d :: r =>
    if is_b64 a && is_b64 b && is_b64 c && (d =? PAD) then Some r else None
  | _ => None
  end.

Definition then_dollar (taken : pystr) (rest : option pystr) : option pystr :=
  match rest with
  | Some r => if at_dollar r then Some taken else None
  | None => None
  end.

(** [(?:..==|...=)?$]: the greedy optional group tries its two
    alternatives in order, then the empty match; the result is the text
    the optional group contributes to group 1. *)
Definition padding_then_end (s : pystr) : option pystr :=
  orelse (then_dollar (firstn 4 s) (pad2 s))
    (orelse (then_dollar (firstn 4 s) (pad1 s))
       (then_dollar [] (Some s))).

(** [((?:[A-Za-z0-9+/]{4})*(?:...)?)$]: the greedy star first tries one
    more group of four and falls back to what follows it when the rest
    of the pattern cannot match after that group.  The result is group 1. *)
Fixpoint payload_then_end (s : pystr) : option pystr :=
  orelse
    (match s with
     | a :: b :: c :: d :: r =>
       if is_b64 a && is_b64 b && is_b64 c && is_b64 d
       then option_map (fun g => a :: b :: c :: d :: g) (payload_then_end r)
       else None
     | _ => None
     end)
    (padding_then_end s).

(** The pattern matched at the start of [s]. *)
Definition match_here (s : pystr) : option pystr :=
  match strip_prefix KEYWORD s with
  | Some r => payload_then_end r
  | None => None
  end.

(** [_COMMAND_PATTERN.search(cmd)]: the leftmost position at which the
    pattern matches; the result is group 1 of the match ([b64cmd[1]]),
    [None] when there is no match. *)
Fixpoint search (cmd : pystr) : option pystr :=
  orelse (match_here cmd)
    (match cmd with
     | [] => None
     | _ :: t => search t
     end).

(** A match object is always truthy. *)
Definition is_encoded_command (cmd : pystr) : bool :=
  match search cmd with Some _ => true | None => false end.

Local Close Scope N_scope.

(** ** The host callback sink: [PSHost] and [PSHostUI] *)

(** Arguments whose value the plugin never inspects. *)
Inductive PyArg :=
| ArgNone
| ArgInt (z : Z)
| ArgStr (s : pystr).

Record PSHost := { exit_code : Z }.

(** The two [io.StringIO] buffers, by their contents.  They are only
    ever written at the end and read whole with [getvalue()]. *)
Record PSHostUI := { stdout : pystr; stderr : pystr }.

Definition PSHost_init : PSHost := {| exit_code := 0 |}.
Definition PSHostUI_init : PSHostUI := {| stdout := []; stderr := [] |}.

Definition set_should_exit (code : Z) (h : PSHost) : PSHost :=
  {| exit_code := code |}.

Definition stdout_write (text : pystr) (ui : PSHostUI) : PSHostUI :=
  {| stdout := stdout ui ++ text; stderr := stderr ui |}.

Definition stderr_write (text : pystr) (ui : PSHostUI) : PSHostUI :=
  {| stdout := stdout ui; stderr := stderr ui ++ text |}.

Definition write (value : pystr) (args : list PyArg) (ui : PSHostUI) :=
  stdout_write value ui.

Definition write_debug_line (line : pystr) (ui : PSHostUI) :=
  stdout_write (lit "DEBUG: " ++ line ++ [NL]) ui.

Definition write_error_line (line : pystr) (ui : PSHostUI) :=
  stderr_write (line ++ [NL]) ui.

(** [(line or "") + "\n"] *)
Definition write_line (line : option pystr) (args : list PyArg)
    (ui : PSHostUI) :=
  stdout_write (match line with Some l => l | None => [] end ++ [NL]) ui.

Definition write_verbose_line (line : pystr) (ui : PSHostUI) :=
  stdout_write (lit "VERBOSE: " ++ line ++ [NL]) ui.

Definition write_warning_line (line : pystr) (ui : PSHostUI) :=
  stdout_write (lit "WARNING: " ++ line ++ [NL]) ui.

Definition write_progress (args : list PyArg) (ui : PSHostUI) : PSHostUI :=
  ui.

(** A call the remote host makes back into the client while a pipeline
    runs. *)
Inductive HostCall :=
| SetShouldExit (code : Z)
| Write (value : pystr) (args : list PyArg)
| WriteDebugLine (line : pystr)
| WriteErrorLine (line : pystr)
| WriteLine (line : option pystr) (args : list PyArg)
| WriteVerboseLine (line : pystr)
| WriteWarningLine (line : pystr)
| WriteProgress (args : list PyArg).

Definition Sink := (PSHost * PSHostUI)%type.

Definition host_call (k : HostCall) (s : Sink) : Sink :=
  let (h, ui) := s in
  match k with
  | SetShouldExit code => (set_should_exit code h, ui)
  | Write v a => (h, write v a ui)
  | WriteDebugLine l => (h, write_debug_line l ui)
  | WriteErrorLine l => (h, write_error_line l ui)
  | WriteLine l a => (h, write_line l a ui)
  | WriteVerboseLine l => (h, write_verbose_line l ui)
  | WriteWarningLine l => (h, write_warning_line l ui)
  | WriteProgress a => (h, write_progress a ui)
  end.

(** ** The transport library, as the plugin sees it *)

Inductive exn :=
| AnsibleError (msg : pystr)
| NotImplementedError
| UnicodeDecodeError
| UnicodeEncodeError
| BinasciiError
| ValueError (msg : pystr)
| TransportError (detail : pystr).

(** [psrpcore.types.RunspacePoolState] *)
Inductive RunspacePoolState :=
| BeforeOpen | Opening | Opened | Closed | Closing | Broken
| NegotiationSent | NegotiationSucceeded | Connecting | Disconnected.

Definition is_Opened (s : RunspacePoolState) : bool :=
  match s with Opened => true | _ => false end.

Record WSManInfo := {
  server : option pystr;
  scheme : pystr;
  port : Z;
  path : option pystr;
  verify : bool;
  auth : option pystr;
  username : option pystr;
  password : option pystr }.

Record ProcessInfo := {
  executable : option pystr;
  arguments : list pystr }.

Inductive ConnectionInfo :=
| WSMan (i : WSManInfo)
| Process (i : ProcessInfo).

(** What one pipeline run delivers, in the order the remote emits it:
    output objects and error records (both by their [str()]) and host
    callbacks. *)
Inductive PipelineEvent :=
| Output (text : pystr)
| ErrorRecord (text : pystr)
| HostCallback (call : HostCall).

Record Invocation := {
  events : list PipelineEvent;
  had_errors : bool;
  failure : option exn }.

Definition Handle := nat.

Inductive TransportCall :=
| PoolCreated (h : Handle) (info : ConnectionInfo)
| PoolOpen (h : Handle)
| PoolClose (h : Handle)
| PipelineInvoke (h : Handle) (scripts : list pystr) (input : option pystr)
| CopyFile (h : Handle) (src dst : pystr)
| FetchFile (h : Handle) (src dst : pystr).

(** The runspace pools that exist, and the calls made on the library. *)
Record World := {
  next_handle : Handle;
  pool_state : Handle -> RunspacePoolState;
  calls : list TransportCall }.

Definition record_call (k : TransportCall) (w : World) : World :=
  {| next_handle := next_handle w;
     pool_state := pool_state w;
     calls := calls w ++ [k] |}.

Definition set_pool_state (h : Handle) (s : RunspacePoolState) (w : World)
    : World :=
  {| next_handle := next_handle w;
     pool_state := fun h' => if Nat.eqb h' h then s else pool_state w h';
     calls := calls w |}.

Definition fresh_pool (w : World) : World :=
  {| next_handle := S (next_handle w);
     pool_state := pool_state w;
     calls := calls w |}.

(** How the library and the remote end answer; the plugin has no control
    over any of it.  [wsman_result] is the constructor [psrp.WSManInfo],
    which checks its arguments and may raise instead of giving the
    connection info. *)
Record Transport := {
  HAS_PSRP : bool;
  PSRP_IMP_ERR : pystr;
  wsman_result : WSManInfo -> option exn;
  open_result : World -> Handle -> option exn;
  close_result : World -> Handle -> option exn;
  invoke_result :
    World -> Handle -> list pystr -> option pystr -> Invocation;
  transfer_result : World -> TransportCall -> option exn }.

(** ** Plugin options *)

Record WinRMOptions := {
  opt_hostname : option pystr;
  opt_remote_user : option pystr;
  opt_remote_password : option pystr;
  opt_use_tls : bool;
  opt_port : option Z;
  opt_path : option pystr;
  opt_auth : option pystr;
  opt_cert_validation : option pystr }.

Record LocalOptions := {
  opt_executable : option pystr;
  opt_arguments : list pystr }.

(** The class of the connection object, with its options. *)
Inductive Plugin :=
| PSRPBase
| PsrpLocal (o : LocalOptions)
| PsrpWinRM (o : WinRMOptions).

Record Connection := {
  transport : pystr;
  plugin : Plugin;
  _ps_host_ui : PSHostUI;
  _ps_host : PSHost;
  _runspace : option Handle;
  _connected : bool }.

(** [PSRPBaseConnection.__init__] *)
Definition Connection_init (name : pystr) (p : Plugin) : Connection :=
  {| transport := name;
     plugin := p;
     _ps_host_ui := PSHostUI_init;
     _ps_host := PSHost_init;
     _runspace := None;
     _connected := false |}.

Definition psrp_local (o : LocalOptions) : Connection :=
  Connection_init (lit "jborean93.psrp.psrp_local") (PsrpLocal o).

Definition psrp_winrm (o : WinRMOptions) : Connection :=
  Connection_init (lit "jborean93.psrp.psrp_wsman") (PsrpWinRM o).

Definition set_sink (s : Sink) (c : Connection) : Connection :=
  {| transport := transport c; plugin := plugin c;
     _ps_host_ui := snd s; _ps_host := fst s;
     _runspace := _runspace c; _connected := _connected c |}.

Definition sink (c : Connection) : Sink := (_ps_host c, _ps_host_ui c).

Definition set_runspace (r : option Handle) (c : Connection) : Connection :=
  {| transport := transport c; plugin := plugin c;
     _ps_host_ui := _ps_host_ui c; _ps_host := _ps_host c;
     _runspace := r; _connected := _connected c |}.

Definition set_connected (b : bool) (c : Connection) : Connection :=
  {| transport := transport c; plugin := plugin c;
     _ps_host_ui := _ps_host_ui c; _ps_host := _ps_host c;
     _runspace := _runspace c; _connected := b |}.

(** ** [_get_connection_info] *)

(** [psrp_winrm.Connection._get_connection_info]: the arguments it
    resolves and hands to [psrp.WSManInfo]. *)
Definition winrm_connection_info (o : WinRMOptions) : WSManInfo :=
  let use_tls := opt_use_tls o in
  let port :=
    match opt_port o with
    | None => if use_tls then 5986%Z else 5985%Z
    | Some p => p
    end in
  {| server := opt_hostname o;
     scheme := if use_tls then lit "https" else lit "http";
     port := port;
     path := opt_path o;
     verify :=
       match opt_cert_validation o with
       | Some v => negb (pystr_eqb v (lit "ignore"))
       | None => true
       end;
     auth := opt_auth o;
     username := opt_remote_user o;
     password := opt_remote_password o |}.

(** [psrp_local.Connection._get_connection_info] *)
Definition local_connection_info (o : LocalOptions) : ProcessInfo :=
  {| executable := opt_executable o; arguments := opt_arguments o |}.

(** ** Methods of the connection object

    A method runs on the connection object and the transport library's
    state; it returns or raises, and what it has mutated before raising
    stays mutated. *)

Inductive res (A : Type) :=
| Ok (a : A)
| Raise (e : exn).
Arguments Ok {A} a.
Arguments Raise {A} e.

Definition M (A : Type) : Type :=
  Connection -> World -> res A * Connection * World.

Definition ret {A} (a : A) : M A := fun c w => (Ok a, c, w).

Definition raise {A} (e : exn) : M A := fun c w => (Raise e, c, w).

Definition bind {A B} (m : M A) (k : A -> M B) : M B :=
  fun c w =>
    match m c w with
    | (Ok a, c', w') => k a c' w'
    | (Raise e, c', w') => (Raise e, c', w')
    end.

Notation "x <- m ;; k" := (bind m (fun x => k))
  (at level 61, m at next level, right associativity).
Notation "m ;;; k" := (bind m (fun _ => k))
  (at level 61, right associativity).

Definition self : M Connection := fun c w => (Ok c, c, w).

Definition update (f : Connection -> Connection) : M unit :=
  fun c w => (Ok tt, f c, w).

Definition of_option {A} (e : exn) (o : option A) : M A :=
  match o with
  | Some a => ret a
  | None => raise e
  end.

(** The pipeline object [psrp.SyncPowerShell(runspace)], local to one
    [exec_command] call. *)
Record PowerShell := {
  ps_runspace : Handle;
  ps_commands : list pystr;
  ps_had_errors : bool;
  ps_error : list pystr }.

Definition SyncPowerShell (runspace : Handle) : PowerShell :=
  {| ps_runspace := runspace; ps_commands := [];
     ps_had_errors := false; ps_error := [] |}.

Definition add_script (script : pystr) (ps : PowerShell) : PowerShell :=
  {| ps_runspace := ps_runspace ps;
     ps_commands := ps_commands ps ++ [script];
     ps_had_errors := ps_had_errors ps;
     ps_error := ps_error ps |}.

Fixpoint outputs_of (evs : list PipelineEvent) : list pystr :=
  match evs with
  | [] => []
  | Output t :: r => t :: outputs_of r
  | _ :: r => outputs_of r
  end.

Fixpoint errors_of (evs : list PipelineEvent) : list pystr :=
  match evs with
  | [] => []
  | ErrorRecord t :: r => t :: errors_of r
  | _ :: r => errors_of r
  end.

(** The host callbacks of a run, applied to the sink in order. *)
Fixpoint deliver (evs : list PipelineEvent) (s : Sink) : Sink :=
  match evs with
  | [] => s
  | HostCallback k :: r => deliver r (host_call k s)
  | _ :: r => deliver r s
  end.

(** [str.splitlines()] boundaries. *)
Definition is_linebreak (c : N) : bool :=
  between 10 13 c || between 28 30 c
  || (c =? 133)%N || (c =? 8232)%N || (c =? 8233)%N.

(** [s.splitlines()[0]] for a non-empty [s]. *)
Fixpoint first_line (s : pystr) : pystr :=
  match s with
  | [] => []
  | c :: r => if is_linebreak c then [] else c :: first_line r
  end.

(** [s.startswith("#!")] *)
Definition starts_with_shebang (s : pystr) : bool :=
  match s with
  | a :: b :: _ => (a =? 35)%N && (b =? 33)%N
  | _ => false
  end.

(** [rc = self._ps_host.exit_code or (1 if ps.had_errors else 0)] *)
Definition derive_rc (host_exit_code : Z) (ps_had_errors : bool) : Z :=
  if (host_exit_code =? 0)%Z
  then (if ps_had_errors then 1%Z else 0%Z)
  else host_exit_code.

(** [if text := buffer.getvalue(): lines.append(text)] *)
Definition append_nonempty (lines : list pystr) (text : pystr)
    : list pystr :=
  match text with
  | [] => lines
  | _ => lines ++ [text]
  end.

(** The script an encoded command stands for:
    [base64.b64decode(b64cmd[1]).decode("utf-16-le")]. *)
Definition decode_script (payload : pystr) : res pystr :=
  match b64decode payload with
  | None => Raise BinasciiError
  | Some raw =>
    match utf16le_decode raw with
    | None => Raise UnicodeDecodeError
    | Some script => Ok script
    end
  end.

Definition EXIT_SUFFIX : pystr := Eval cbv in NL :: lit "exit $LASTEXITCODE".

(** The script [exec_command] hands to [ps.add_script] for [cmd]. *)
Definition script_for (cmd : pystr) : res pystr :=
  match search cmd with
  | Some payload => decode_script payload
  | None => Ok (cmd ++ EXIT_SUFFIX)
  end.

Definition of_res {A} (r : res A) : M A :=
  match r with
  | Ok a => ret a
  | Raise e => raise e
  end.

(** [in_data.decode() if in_data else None] *)
Definition decode_input (in_data : option bytes) : res (option pystr) :=
  match in_data with
  | None | Some [] => Ok None
  | Some b =>
    match utf8_decode b with
    | Some text => Ok (Some text)
    | None => Raise UnicodeDecodeError
    end
  end.

(** [input_data and input_data.startswith("#!")], with the text. *)
Definition shebang_text (input_data : option pystr) : option pystr :=
  match input_data with
  | Some ((_ :: _) as text) =>
    if starts_with_shebang text then Some text else None
  | _ => None
  end.

(** [input_data.splitlines()[0][2:]] *)
Definition interpreter_of (text : pystr) : pystr :=
  skipn 2 (first_line text).

(** The message of the error raised for an interpreter line. *)
Definition interpreter_error (interpreter name : pystr) : exn :=
  AnsibleError
    (lit "cannot run the interpreter '" ++ interpreter
     ++ lit "' on the " ++ name ++ lit " connection plugin").

Section Methods.

Variable T : Transport.

(** [self._get_connection_info()] *)
Definition _get_connection_info : M ConnectionInfo :=
  c <- self ;;
  match plugin c with
  | PSRPBase => raise NotImplementedError
  | PsrpLocal o => ret (Process (local_connection_info o))
  | PsrpWinRM o =>
    match wsman_result T (winrm_connection_info o) with
    | None => ret (WSMan (winrm_connection_info o))
    | Some e => raise e
    end
  end.

(** [psrp.SyncRunspacePool(info, host=self._ps_host)] *)
Definition new_pool (info : ConnectionInfo) : M Handle :=
  fun c w =>
    let h := next_handle w in
    (Ok h, c,
     record_call (PoolCreated h info)
       (set_pool_state h BeforeOpen (fresh_pool w))).

(** [runspace.open()] *)
Definition pool_open (h : Handle) : M unit :=
  fun c w =>
    let w' := record_call (PoolOpen h) w in
    match open_result T w h with
    | None => (Ok tt, c, set_pool_state h Opened w')
    | Some e => (Raise e, c, set_pool_state h Broken w')
    end.

(** [runspace.close()] *)
Definition pool_close (h : Handle) : M unit :=
  fun c w =>
    let w' := record_call (PoolClose h) w in
    match close_result T w h with
    | None => (Ok tt, c, set_pool_state h Closed w')
    | Some e => (Raise e, c, w')
    end.

(** [runspace.state] *)
Definition pool_get_state (h : Handle) : M RunspacePoolState :=
  fun c w => (Ok (pool_state w h), c, w).

(** [ps.invoke(input_data=[input_data])]: the host callbacks reach the
    host object the pool was created with, which is the connection's. *)
Definition invoke (ps : PowerShell) (input_data : option pystr)
    : M (list pystr * PowerShell) :=
  fun c w =>
    let r := invoke_result T w (ps_runspace ps) (ps_commands ps) input_data in
    let w' :=
      record_call
        (PipelineInvoke (ps_runspace ps) (ps_commands ps) input_data) w in
    let c' := set_sink (deliver (events r) (sink c)) c in
    match failure r with
    | Some e => (Raise e, c', w')
    | None =>
      (Ok (outputs_of (events r),
           {| ps_runspace := ps_runspace ps;
              ps_commands := ps_commands ps;
              ps_had_errors := had_errors r;
              ps_error := errors_of (events r) |}),
       c', w')
    end.

(** [psrp.copy_file] and [psrp.fetch_file] *)
Definition transfer (k : TransportCall) : M unit :=
  fun c w =>
    match transfer_result T w k with
    | None => (Ok tt, c, record_call k w)
    | Some e => (Raise e, c, record_call k w)
    end.

(** [PSRPBaseConnection._get_runspace].  A pool object is truthy. *)
Definition _get_runspace : M Handle :=
  if negb (HAS_PSRP T) then
    raise (AnsibleError
             (lit "pypsrp or dependencies are not installed: "
              ++ PSRP_IMP_ERR T))
  else
    c <- self ;;
    match _runspace c with
    | Some h => ret h
    | None =>
      info <- _get_connection_info ;;
      h <- new_pool info ;;
      update (set_runspace (Some h)) ;;;
      pool_open h ;;;
      update (set_connected true) ;;;
      ret h
    end.

(** [PSRPBaseConnection.exec_command].  The [display] calls, which
    only log, are left out; [ps.invoke] receives the one-element list
    [[input_data]], recorded here by its element. *)
Definition exec_command (cmd : pystr) (in_data : option bytes)
    : M (Z * bytes * bytes) :=
  input_data <- of_res (decode_input in_data) ;;
  runspace <- _get_runspace ;;
  let ps := SyncPowerShell runspace in
  ps <-
    match search cmd with
    | Some payload =>
      script <- of_res (decode_script payload) ;;
      let ps := add_script script ps in
      match shebang_text input_data with
      | Some text =>
        c <- self ;;
        let interpreter := interpreter_of text in
        raise (interpreter_error interpreter (transport c))
      | None => ret ps
      end
    | None =>
      let script := cmd ++ EXIT_SUFFIX in
      ret (add_script script ps)
    end ;;
  r <- invoke ps input_data ;;
  let (output, ps) := r in
  c <- self ;;
  let rc := derive_rc (exit_code (_ps_host c)) (ps_had_errors ps) in
  let stdout := append_nonempty output (stdout (_ps_host_ui c)) in
  let stderr := append_nonempty (ps_error ps) (stderr (_ps_host_ui c)) in
  update (set_sink (PSHost_init, PSHostUI_init)) ;;;
  let stdout_str := join [NL] stdout in
  let stderr_str := join [NL] stderr in
  out <- of_option UnicodeEncodeError (utf8_encode stdout_str) ;;
  err <- of_option UnicodeEncodeError (utf8_encode stderr_str) ;;
  ret (rc, out, err).

(** [PSRPBaseConnection.put_file] *)
Definition put_file (in_path out_path : pystr) : M unit :=
  runspace <- _get_runspace ;;
  transfer (CopyFile runspace in_path out_path).

(** [PSRPBaseConnection.fetch_file] *)
Definition fetch_file (in_path out_path : pystr) : M unit :=
  runspace <- _get_runspace ;;
  transfer (FetchFile runspace in_path out_path).

(** [PSRPBaseConnection.close] *)
Definition close : M unit :=
  c <- self ;;
  if negb (_connected c) then ret tt
  else
    runspace <- _get_runspace ;;
    st <- pool_get_state runspace ;;
    (if is_Opened st then pool_close runspace else ret tt) ;;;
    update (set_runspace None) ;;;
    update (set_connected false).

(** [PSRPBaseConnection.reset] *)
Definition reset : M unit :=
  c <- self ;;
  if negb (_connected c) then ret tt
  else
    close ;;;
    _ <- _get_runspace ;;
    ret tt.

(** [PSRPBaseConnection._connect] *)
Definition _connect : M unit := ret tt.

End Methods.

(** ** The command-string convention, in the words of the specification *)

(** Zero or more groups of four base64-alphabet characters, optionally
    terminated by a group with one or two padding characters. *)
Fixpoint base64_text (s : pystr) : bool :=
  match s with
  | [] => true
  | a :: b :: c :: d :: r =>
    is_b64 a && is_b64 b
    && ((is_b64 c && is_b64 d && base64_text r)
        || (match r with [] => true | _ => false end
            && ((is_b64 c && (d =? PAD)%N)
                || ((c =? PAD)%N && (d =? PAD)%N))))
  | _ => false
  end.

(** [cmd] ends with the text [marker] followed by a base64 payload. *)
Definition ends_with_marker_and_payload (marker cmd : pystr) : Prop :=
  exists prefix payload,
    base64_text payload = true /\ cmd = prefix ++ marker ++ payload.

(** The marker as the claim spells it, with a space on either side. *)
Definition SPACED_KEYWORD : pystr := Eval cbv in lit " -EncodedCommand ".

(** A character a payload may hold. *)
Definition payload_char (c : N) : bool := is_b64 c || (c =? PAD)%N.

(** ** Sample transports and inputs *)

Definition world0 : World :=
  {| next_handle := 0; pool_state := fun _ => BeforeOpen; calls := [] |}.

(** A remote end that answers every run with the given invocation. *)
Definition scripted (r : Invocation) : Transport :=
  {| HAS_PSRP := true;
     PSRP_IMP_ERR := [];
     wsman_result := fun _ => None;
     open_result := fun _ _ => None;
     close_result := fun _ _ => None;
     invoke_result := fun _ _ _ _ => r;
     transfer_result := fun _ _ => None |}.

(** A library whose [WSManInfo] refuses basic authentication over
    plain http. *)
Definition validating : Transport :=
  {| HAS_PSRP := true;
     PSRP_IMP_ERR := [];
     wsman_result := fun i =>
       if pystr_eqb (scheme i) (lit "http")
          && match auth i with
             | Some a => pystr_eqb a (lit "basic")
             | None => false
             end
       then Some (ValueError (lit "basic auth needs https"))
       else None;
     open_result := fun _ _ => None;
     close_result := fun _ _ => None;
     invoke_result := fun _ _ _ _ =>
       {| events := []; had_errors := false; failure := None |};
     transfer_result := fun _ _ => None |}.

Definition silent : Invocation :=
  {| events := []; had_errors := false; failure := None |}.

Definition winrm_defaults : WinRMOptions :=
  {| opt_hostname := Some (lit "server01");
     opt_remote_user := None;
     opt_remote_password := None;
     opt_use_tls := false;
     opt_port := None;
     opt_path := Some (lit "wsman");
     opt_auth := Some (lit "negotiate");
     opt_cert_validation := Some (lit "validate") |}.

(** TLS, no port configured, certificate validation switched off. *)
Definition winrm_tls_ignore : WinRMOptions :=
  {| opt_hostname := Some (lit "server01");
     opt_remote_user := Some (lit "admin");
     opt_remote_password := Some (lit "secret");
     opt_use_tls := true;
     opt_port := None;
     opt_path := Some (lit "wsman");
     opt_auth := Some (lit "basic");
     opt_cert_validation := Some (lit "ignore") |}.

(** Basic authentication without TLS, on an explicit port. *)
Definition winrm_basic_http : WinRMOptions :=
  {| opt_hostname := Some (lit "server01");
     opt_remote_user := Some (lit "admin");
     opt_remote_password := Some (lit "secret");
     opt_use_tls := false;
     opt_port := Some 8080%Z;
     opt_path := Some (lit "wsman");
     opt_auth := Some (lit "basic");
     opt_cert_validation := Some (lit "ignore") |}.

Definition local_defaults : LocalOptions :=
  {| opt_executable := Some (lit "pwsh");
     opt_arguments := [lit "-NoProfile"; lit "-NoLogo"; lit "-ServerMode"] |}.

(** [#!/usr/bin/python] and a body, as piped input. *)
Definition shebang_payload : bytes :=
  Eval cbv in lit "#!/usr/bin/python" ++ [NL] ++ lit "print(1)".

(** [powershell -EncodedCommand ZABpAHIA]; the payload is [dir]. *)
Definition encoded_dir : pystr :=
  Eval cbv in lit "powershell -EncodedCommand ZABpAHIA".

(** Text on the host, an exit signal, then a failed pipeline. *)
Definition noisy_failure : Invocation :=
  {| events := [HostCallback (Write (lit "partial") []);
                HostCallback (WriteErrorLine (lit "oops"));
                HostCallback (SetShouldExit 3)];
     had_errors := true;
     failure := Some (TransportError (lit "PipelineFailed")) |}.

(** Host text emitted before, between and after the output objects. *)
Definition interleaved : Invocation :=
  {| events := [HostCallback (WriteLine (Some (lit "first")) []);
                Output (lit "a");
                HostCallback (WriteErrorLine (lit "e1"));
                ErrorRecord (lit "E");
                Output (lit "b");
                HostCallback (WriteProgress [ArgInt 1]);
                HostCallback (Write (lit "last") [])];
     had_errors := true;
     failure := None |}.

(** The remote asks to exit with 7 after reporting errors. *)
Definition exit_seven : Invocation :=
  {| events := [HostCallback (SetShouldExit 7)];
     had_errors := true;
     failure := None |}.

(** [powershell -EncodedCommand PdgA3g==]; the payload is the one
    character U+1F600, a surrogate pair in UTF-16. *)
Definition encoded_smiley : pystr :=
  Eval cbv in lit "powershell -EncodedCommand PdgA3g==".

(** [powershell -EncodedCommand AAAA] followed by a newline. *)
Definition newline_terminated : pystr :=
  Eval cbv in lit "powershell -EncodedCommand AAAA" ++ [NL].

Definition result_of {A} (x : res A * Connection * World) : res A :=
  fst (fst x).
Definition conn_of {A} (x : res A * Connection * World) : Connection :=
  snd (fst x).
Definition world_of {A} (x : res A * Connection * World) : World :=
  snd x.

Definition is_invoke (k : TransportCall) : bool :=
  match k with PipelineInvoke _ _ _ => true | _ => false end.

(** What the remote end answers to the pipeline that
    [exec_command cmd in_data] submits from [c] and [w], when the call
    gets as far as submitting one. *)
Definition pipeline_run (T : Transport) (cmd : pystr)
    (in_data : option bytes) (c : Connection) (w : World)
    : option Invocation :=
  match decode_input in_data, result_of (_get_runspace T c w),
        script_for cmd with
  | Ok input_data, Ok h, Ok script =>
    match search cmd, shebang_text input_data with
    | Some _, Some _ => None
    | _, _ =>
      Some (invoke_result T (world_of (_get_runspace T c w)) h [script]
              input_data)
    end
  | _, _, _ => None
  end.

Definition is_progress (e : PipelineEvent) : bool :=
  match e with HostCallback (WriteProgress _) => true | _ => false end.

(** The same transport, had the remote sent no progress records. *)
Definition without_progress (T : Transport) : Transport :=
  {| HAS_PSRP := HAS_PSRP T;
     PSRP_IMP_ERR := PSRP_IMP_ERR T;
     wsman_result := wsman_result T;
     open_result := open_result T;
     close_result := close_result T;
     invoke_result := fun w h scripts input =>
       let r := invoke_result T w h scripts input in
       {| events := filter (fun e => negb (is_progress e)) (events r);
          had_errors := had_errors r;
          failure := failure r |};
     transfer_result := transfer_result T |}.

(** The separator [join] puts between the structured lines and the host
    text appended after them. *)
Definition separator (lines : list pystr) (host_text : pystr) : pystr :=
  match lines, host_text with
  | _ :: _, _ :: _ => [NL]
  | _, _ => []
  end.

(** [n] calls of the accessor in a row; the handle of the last one. *)
Fixpoint repeat_get_runspace (T : Transport) (n : nat) (h : Handle)
    : M Handle :=
  match n with
  | O => ret h
  | S n' => h' <- _get_runspace T ;; repeat_get_runspace T n' h'
  end.
(** The outcome of [exec_command] from [ps.invoke] on, by cases: the
    pipeline holds [script], the callbacks of the run reach the sink,
    and a run that did not fail is collected and the sink reset. *)
Definition run_pipeline (T : Transport) (h : Handle) (script : pystr)
    (input_data : option pystr) (c1 : Connection) (w1 : World)
    : res (Z * bytes * bytes) * Connection * World :=
  let r := invoke_result T w1 h [script] input_data in
  let s := deliver (events r) (sink c1) in
  let w2 := record_call (PipelineInvoke h [script] input_data) w1 in
  match failure r with
  | Some e => (Raise e, set_sink s c1, w2)
  | None =>
    let c3 := set_sink (PSHost_init, PSHostUI_init) c1 in
    match
      utf8_encode
        (join [NL] (append_nonempty (outputs_of (events r)) (stdout (snd s)))),
      utf8_encode
        (join [NL] (append_nonempty (errors_of (events r)) (stderr (snd s))))
    with
    | Some out, Some err =>
      (Ok (derive_rc (exit_code (fst s)) (had_errors r), out, err), c3, w2)
    | _, _ => (Raise UnicodeEncodeError, c3, w2)
    end
  end.

(** ** Observations on runs and sessions *)

(** The lines of the [write_error_line] calls of a run, in order. *)
Fixpoint error_lines (evs : list PipelineEvent) : list pystr :=
  match evs with
  | [] => []
  | HostCallback (WriteErrorLine l) :: r => l :: error_lines r
  | _ :: r => error_lines r
  end.

(** The code of the last [set_should_exit] call of a run, if any. *)
Fixpoint last_exit_signal (evs : list PipelineEvent) : option Z :=
  match evs with
  | [] => None
  | HostCallback (SetShouldExit n) :: r =>
    match last_exit_signal r with
    | Some m => Some m
    | None => Some n
    end
  | _ :: r => last_exit_signal r
  end.

(** [self._runspace = None; self._connected = False] *)
Definition cleared (c : Connection) : Connection :=
  set_connected false (set_runspace None c).

(** A connection marked connected holds a runspace. *)
Definition session_consistent (c : Connection) : Prop :=
  _connected c = true -> _runspace c <> None.

(** Two connection objects that differ at most in the sink. *)
Definition same_session (a b : Connection) : Prop :=
  _runspace a = _runspace b /\ _connected a = _connected b
  /\ transport a = transport b /\ plugin a = plugin b.

(** What [_get_connection_info] gives for each class. *)
Definition connection_info_of (T : Transport) (p : Plugin)
    : res ConnectionInfo :=
  match p with
  | PSRPBase => Raise NotImplementedError
  | PsrpLocal o => Ok (Process (local_connection_info o))
  | PsrpWinRM o =>
    match wsman_result T (winrm_connection_info o) with
    | None => Ok (WSMan (winrm_connection_info o))
    | Some e => Raise e
    end
  end.

(** The world right after [psrp.SyncRunspacePool(info, ...)]. *)
Definition with_new_pool (info : ConnectionInfo) (w : World) : World :=
  record_call (PoolCreated (next_handle w) info)
    (set_pool_state (next_handle w) BeforeOpen (fresh_pool w)).

Definition is_pool_call (k : TransportCall) : bool :=
  match k with
  | PoolCreated _ _ | PoolOpen _ | PoolClose _ => true
  | _ => false
  end.

(** No pool can be opened. *)
Definition refusing : Transport :=
  {| HAS_PSRP := true;
     PSRP_IMP_ERR := [];
     wsman_result := fun _ => None;
     open_result := fun _ _ => Some (TransportError (lit "refused"));
     close_result := fun _ _ => None;
     invoke_result := fun _ _ _ _ => silent;
     transfer_result := fun _ _ => None |}.

(** Pools open but cannot be closed. *)
Definition stuck_close : Transport :=
  {| HAS_PSRP := true;
     PSRP_IMP_ERR := [];
     wsman_result := fun _ => None;
     open_result := fun _ _ => None;
     close_result := fun _ _ => Some (TransportError (lit "close failed"));
     invoke_result := fun _ _ _ _ => silent;
     transfer_result := fun _ _ => None |}.

(** A local connection after its first use, and the world then. *)
Definition opened_local : Connection :=
  conn_of (_get_runspace (scripted silent) (psrp_local local_defaults) world0).
Definition opened_world : World :=
  world_of (_get_runspace (scripted silent) (psrp_local local_defaults) world0).

(** A single output object whose text holds a lone surrogate. *)
Definition surrogate_output : Invocation :=
  {| events := [HostCallback (Write (lit "seen") []); Output [55357%N]];
     had_errors := false;
     failure := None |}.

(** ** The caller's side of an encoded command

    The plugin only decodes.  These are the inverses of its decoders,
    used to show which scripts an encoded command can carry. *)

(** A text of Unicode scalar values: code points below 0x110000 that are
    not surrogates. *)
Definition scalar_text (s : pystr) : bool :=
  forallb (fun ch => (ch <? 1114112)%N && negb (between 55296 57343 ch)) s.

Definition b64_char (v : N) : N :=
  (if v <? 26 then 65 + v
   else if v <? 52 then 71 + v
   else if v <? 62 then v - 4
   else if v =? 62 then 43
   else 47)%N.

Fixpoint b64encode (bs : bytes) : pystr :=
  match bs with
  | [] => []
  | [a] =>
    let n := (a * 16)%N in
    [b64_char (n / 64); b64_char (n mod 64); PAD; PAD]%N
  | [a; b] =>
    let m := ((a * 256 + b) * 4)%N in
    [b64_char (m / 4096); b64_char ((m / 64) mod 64); b64_char (m mod 64);
     PAD]%N
  | a :: b :: c :: r =>
    let m := ((a * 256 + b) * 256 + c)%N in
    (b64_char (m / 262144) :: b64_char ((m / 4096) mod 64)
     :: b64_char ((m / 64) mod 64) :: b64_char (m mod 64)
     :: b64encode r)%N
  end.

(** The UTF-16 code units of a text. *)
Fixpoint utf16_units (s : pystr) : list N :=
  match s with
  | [] => []
  | ch :: r =>
    (if ch <? 65536 then [ch]
     else [55296 + (ch - 65536) / 1024; 56320 + (ch - 65536) mod 1024])%N
    ++ utf16_units r
  end.

Fixpoint units_le (us : list N) : bytes :=
  match us with
  | [] => []
  | u :: r => (u mod 256 :: u / 256 :: units_le r)%N
  end.

Definition utf16le_encode (s : pystr) : bytes := units_le (utf16_units s).

(** ** Properties of the pattern *)

Section Pattern.

Local Open Scope N_scope.

Lemma list_ind4 (P : pystr -> Prop) :
  P [] -> (forall a, P [a]) -> (forall a b, P [a; b]) ->
  (forall a b c, P [a; b; c]) ->
  (forall a b c d r, P r -> P (a :: b :: c :: d :: r)) ->
  forall s, P s.
Proof.
  intros H0 H1 H2 H3 H4.
  fix IH 1.
  intros [|a [|b [|c [|d r]]]].
  - exact H0.
  - apply H1.
  - apply H2.
  - apply H3.
  - apply H4. apply IH.
Qed.

Lemma b64_not_pad c : is_b64 c = true -> (c =? PAD) = false.
Proof.
  intros H. destruct (c =? PAD) eqn:E; auto.
  apply N.eqb_eq in E. subst c. discriminate H.
Qed.

Lemma b64_not_dash c : is_b64 c = true -> c <> 45.
Proof. intros H E. subst c. discriminate H. Qed.

Lemma b64_not_NL c : is_b64 c = true -> c <> NL.
Proof. intros H E. subst c. discriminate H. Qed.

Lemma b64_payload_char c : is_b64 c = true -> payload_char c = true.
Proof. unfold payload_char. intros ->. reflexivity. Qed.

Lemma pad_payload_char c : (c =? PAD) = true -> payload_char c = true.
Proof. unfold payload_char. intros ->. apply orb_true_r. Qed.

Lemma base64_text_chars g :
  base64_text g = true -> Forall (fun c => payload_char c = true) g.
Proof.
  induction g as [| | | |a b c d r IH] using list_ind4;
    cbn [base64_text]; intros H; try discriminate; auto.
  apply andb_prop in H as [Hab H]. apply andb_prop in Hab as [Ha Hb].
  apply orb_prop in H as [H|H].
  - apply andb_prop in H as [Hcd Hr]. apply andb_prop in Hcd as [Hc Hd].
    repeat constructor; auto using b64_payload_char.
  - apply andb_prop in H as [Hr H]. destruct r; [|discriminate].
    apply orb_prop in H as [H|H]; apply andb_prop in H as [Hc Hd];
      repeat constructor; auto using b64_payload_char, pad_payload_char.
Qed.

(** The text after the keyword is accepted exactly when it is a base64
    payload, alone or followed by one final newline. *)
Lemma payload_then_end_sound s : forall g,
  payload_then_end s = Some g ->
  base64_text g = true /\ (s = g \/ s = g ++ [NL]).
Proof.
  induction s as [|a|a b|a b c|a b c d r IH] using list_ind4; intros g.
  - cbn. intros [= <-]. auto.
  - cbn. destruct (a =? NL) eqn:E; [|discriminate].
    intros [= <-]. apply N.eqb_eq in E. subst. auto.
  - cbn. discriminate.
  - cbn. discriminate.
  - cbn [payload_then_end].
    destruct (is_b64 a && is_b64 b && is_b64 c && is_b64 d) eqn:E4.
    + destruct (payload_then_end r) as [g'|] eqn:Er.
      * cbn. intros [= <-].
        destruct (IH g' eq_refl) as [Hg Hs].
        split.
        -- cbn [base64_text].
           apply andb_prop in E4 as [E3 Hd]. apply andb_prop in E3 as [E2 Hc].
           rewrite E2, Hc, Hd, Hg. reflexivity.
        -- destruct Hs as [->| ->]; auto.
      * cbn [option_map orelse].
        apply andb_prop in E4 as [E3 Hd]. apply andb_prop in E3 as [E2 Hc].
        apply andb_prop in E2 as [Ha Hb].
        unfold padding_then_end, pad2, pad1, then_dollar.
        rewrite Ha, Hb, Hc, (b64_not_pad _ Hc), (b64_not_pad _ Hd).
        cbn. destruct r; discriminate.
    + cbn [orelse].
      unfold padding_then_end, pad2, pad1, then_dollar. cbn [firstn].
      destruct (is_b64 a && is_b64 b && (c =? PAD) && (d =? PAD)) eqn:P2.
      * destruct (at_dollar r) eqn:D.
        -- cbn. intros [= <-]. split.
           ++ apply andb_prop in P2 as [P3 Hd]. apply andb_prop in P3 as [P4 Hc].
              cbn. rewrite P4, Hc, Hd.
              destruct r as [|x [|y r]]; try discriminate;
                rewrite !orb_true_r; reflexivity.
           ++ destruct r as [|x [|y r]]; try discriminate; auto.
              cbn in D. apply N.eqb_eq in D. subst. auto.
        -- cbn [orelse].
           apply andb_prop in P2 as [P3 Hd]. apply andb_prop in P3 as [P4 Hc].
           apply N.eqb_eq in Hc. subst c.
           replace (is_b64 PAD) with false by reflexivity.
           rewrite !andb_false_r. cbn. discriminate.
      * cbn [orelse].
        destruct (is_b64 a && is_b64 b && is_b64 c && (d =? PAD)) eqn:P1.
        -- destruct (at_dollar r) eqn:D.
           ++ cbn. intros [= <-]. split.
              ** apply andb_prop in P1 as [P3 Hd]. apply andb_prop in P3 as [P4 Hc].
                 cbn. rewrite P4, Hc, Hd.
                 destruct r as [|x [|y r]]; try discriminate;
                   rewrite ?andb_true_r, ?orb_true_r; reflexivity.
              ** destruct r as [|x [|y r]]; try discriminate; auto.
                 cbn in D. apply N.eqb_eq in D. subst. auto.
           ++ cbn. discriminate.
        -- cbn. discriminate.
Qed.

Lemma payload_then_end_complete g : forall tail,
  base64_text g = true -> at_dollar tail = true ->
  payload_then_end (g ++ tail) = Some g.
Proof.
  induction g as [|a|a b|a b c|a b c d r IH] using list_ind4;
    intros tail Hg Ht; try discriminate.
  - cbn [app]. destruct tail as [|x [|y t]]; try discriminate.
    + reflexivity.
    + cbn in Ht. cbn. rewrite Ht. reflexivity.
  - cbn [base64_text] in Hg.
    apply andb_prop in Hg as [Hab H]. apply andb_prop in Hab as [Ha Hb].
    cbn [app payload_then_end]. rewrite Ha, Hb. cbn [andb].
    apply orb_prop in H as [H|H].
    + apply andb_prop in H as [Hcd Hr]. apply andb_prop in Hcd as [Hc Hd].
      rewrite Hc, Hd, (IH tail Hr Ht). reflexivity.
    + apply andb_prop in H as [Hr H]. destruct r; [|discriminate].
      cbn [app].
      unfold padding_then_end, pad2, pad1, then_dollar. cbn [firstn].
      rewrite Ha, Hb.
      apply orb_prop in H as [H|H]; apply andb_prop in H as [Hc Hd].
      * apply N.eqb_eq in Hd. subst d.
        rewrite Hc, (b64_not_pad _ Hc).
        replace (is_b64 PAD) with false by reflexivity.
        cbn -[at_dollar]. rewrite Ht. reflexivity.
      * apply N.eqb_eq in Hc, Hd. subst c d.
        replace (is_b64 PAD) with false by reflexivity.
        cbn -[at_dollar]. rewrite Ht. reflexivity.
Qed.

Lemma strip_prefix_spec p : forall s r,
  strip_prefix p s = Some r <-> s = p ++ r.
Proof.
  induction p as [|x p IH]; intros s r; cbn.
  - split; [intros [= ->]|intros ->]; reflexivity.
  - destruct s as [|y s].
    + split; discriminate.
    + destruct (x =? y) eqn:E.
      * apply N.eqb_eq in E. subst y. rewrite IH.
        split; [intros ->|intros [= ->]]; reflexivity.
      * apply N.eqb_neq in E. split; [discriminate|].
        intros [= -> _]. contradiction.
Qed.

Lemma match_here_sound s g :
  match_here s = Some g ->
  exists tail, at_dollar tail = true /\ base64_text g = true
               /\ s = KEYWORD ++ g ++ tail.
Proof.
  unfold match_here. destruct (strip_prefix KEYWORD s) as [r|] eqn:E;
    [|discriminate].
  apply strip_prefix_spec in E. intros H.
  apply payload_then_end_sound in H as [Hg [->| ->]].
  - exists []. rewrite app_nil_r. auto.
  - exists [NL]. auto.
Qed.

Lemma match_here_complete g tail :
  base64_text g = true -> at_dollar tail = true ->
  match_here (KEYWORD ++ g ++ tail) = Some g.
Proof.
  intros Hg Ht. unfold match_here.
  rewrite (proj2 (strip_prefix_spec KEYWORD _ (g ++ tail)) eq_refl).
  apply payload_then_end_complete; assumption.
Qed.

(** No text accepted at its start has a dash after its first character,
    so a match can only begin at the last dash of the command. *)
Lemma match_here_no_later_dash s g :
  match_here s = Some g -> ~ In 45 (tl s).
Proof.
  intros H. apply match_here_sound in H as (tail & Ht & Hg & ->).
  apply base64_text_chars in Hg. rewrite Forall_forall in Hg.
  cbn [KEYWORD app tl].
  intros Hin.
  repeat (destruct Hin as [Hin|Hin]; [discriminate Hin|]).
  apply in_app_or in Hin as [Hin|Hin].
  - apply Hg in Hin. discriminate Hin.
  - destruct tail as [|x [|y t]]; try discriminate; [destruct Hin|].
    cbn in Ht. apply N.eqb_eq in Ht. subst x.
    destruct Hin as [Hin|[]]. discriminate Hin.
Qed.

Lemma search_here s g : match_here s = Some g -> search s = Some g.
Proof. intros H. destruct s; cbn [search]; rewrite H; reflexivity. Qed.

Lemma search_complete prefix g tail :
  base64_text g = true -> at_dollar tail = true ->
  search (prefix ++ KEYWORD ++ g ++ tail) = Some g.
Proof.
  intros Hg Ht. induction prefix as [|x prefix IH].
  - cbn [app]. apply search_here, match_here_complete; assumption.
  - cbn [app search].
    destruct (match_here (x :: prefix ++ KEYWORD ++ g ++ tail)) eqn:E.
    + exfalso. apply match_here_no_later_dash in E. apply E.
      cbn [tl]. apply in_or_app. right. left. reflexivity.
    + cbn [orelse]. exact IH.
Qed.

Lemma search_sound cmd : forall g,
  search cmd = Some g ->
  exists prefix tail, at_dollar tail = true /\ base64_text g = true
                      /\ cmd = prefix ++ KEYWORD ++ g ++ tail.
Proof.
  induction cmd as [|x cmd IH]; intros g.
  - cbn. discriminate.
  - cbn [search]. destruct (match_here (x :: cmd)) eqn:E.
    + cbn. intros [= ->]. apply match_here_sound in E as (tail & ? & ? & ?).
      exists [], tail. auto.
    + cbn [orelse]. intros H. apply IH in H as (p & tail & ? & ? & ->).
      exists (x :: p), tail. auto.
Qed.

(** The payload of a pattern match decodes: base64 decoding cannot fail
    on group 1. *)
Lemma b64decode_total g :
  base64_text g = true -> exists raw, b64decode g = Some raw.
Proof.
  induction g as [|a|a b|a b c|a b c d r IH] using list_ind4;
    intros Hg; try discriminate.
  - exists []. reflexivity.
  - cbn [base64_text] in Hg.
    apply andb_prop in Hg as [Hab H]. apply andb_prop in Hab as [Ha Hb].
    cbn [b64decode]. rewrite Ha, Hb. cbn [andb].
    apply orb_prop in H as [H|H].
    + apply andb_prop in H as [Hcd Hr]. apply andb_prop in Hcd as [Hc Hd].
      rewrite Hc, Hd. cbn [andb]. destruct (IH Hr) as [raw ->].
      eexists. reflexivity.
    + apply andb_prop in H as [Hr H]. destruct r; [|discriminate].
      apply orb_prop in H as [H|H]; apply andb_prop in H as [Hc Hd].
      * apply N.eqb_eq in Hd. subst d. rewrite Hc.
        replace (is_b64 PAD) with false by reflexivity.
        rewrite N.eqb_refl. cbn [andb]. eexists. reflexivity.
      * apply N.eqb_eq in Hc, Hd. subst c d.
        replace (is_b64 PAD) with false by reflexivity.
        rewrite N.eqb_refl. cbn [andb]. eexists. reflexivity.
Qed.

End Pattern.

(** ** How a method run unfolds *)

Section Runs.

Variable T : Transport.

Lemma bind_run {A B} (m : M A) (k : A -> M B) c w :
  bind m k c w =
  match m c w with
  | (Ok a, c', w') => k a c' w'
  | (Raise e, c', w') => (Raise e, c', w')
  end.
Proof. reflexivity. Qed.

(** The accessor on a connection that holds a runspace. *)
Lemma _get_runspace_held c w h :
  HAS_PSRP T = true -> _runspace c = Some h ->
  _get_runspace T c w = (Ok h, c, w).
Proof.
  intros HP Hr. unfold _get_runspace. rewrite HP. cbn [negb].
  unfold bind, self. rewrite Hr. reflexivity.
Qed.

(** The accessor never touches the sink, the plugin or its name, and
    invokes no pipeline. *)
Lemma _get_runspace_frame c w :
  let G := _get_runspace T c w in
  sink (conn_of G) = sink c
  /\ transport (conn_of G) = transport c
  /\ plugin (conn_of G) = plugin c
  /\ filter is_invoke (calls (world_of G)) = filter is_invoke (calls w).
Proof.
  unfold _get_runspace.
  destruct (HAS_PSRP T); cbn [negb]; [|cbn; auto].
  unfold bind, self. destruct (_runspace c) as [h|]; [cbn; auto|].
  unfold _get_connection_info, bind, self.
  destruct (plugin c) as [|o|o] eqn:Hp; cbn -[filter]; auto.
  - unfold pool_open. destruct (open_result T _ _);
      cbn -[filter]; rewrite !filter_app; cbn; rewrite !app_nil_r; auto.
  - destruct (wsman_result T (winrm_connection_info o));
      cbn -[filter]; auto.
    unfold pool_open. destruct (open_result T _ _);
      cbn -[filter]; rewrite !filter_app; cbn; rewrite !app_nil_r; auto.
Qed.

Ltac finish_run :=
  rewrite bind_run; unfold run_pipeline, invoke, add_script, SyncPowerShell;
  cbn [ps_runspace ps_commands app];
  match goal with
  | |- context [failure ?r] => destruct (failure r); [reflexivity|]
  end;
  cbv beta iota zeta; rewrite !bind_run; unfold self, update;
  cbn [_ps_host _ps_host_ui set_sink fst snd ps_had_errors ps_error];
  rewrite ?bind_run;
  match goal with
  | |- context [deliver ?e ?s] => destruct (deliver e s) as [hs ui]
  end;
  cbn [fst snd];
  match goal with
  | |- context [utf8_encode (join ?n (append_nonempty (outputs_of ?e) ?t))] =>
    destruct (utf8_encode (join n (append_nonempty (outputs_of e) t)))
  end;
  cbn [of_option ret raise]; [|reflexivity];
  rewrite ?bind_run;
  match goal with
  | |- context [utf8_encode (join ?n (append_nonempty (errors_of ?e) ?t))] =>
    destruct (utf8_encode (join n (append_nonempty (errors_of e) t)))
  end;
  cbn [of_option ret raise]; reflexivity.

(** Every run of [exec_command], step by step. *)
Lemma exec_command_run cmd in_data c w :
  exec_command T cmd in_data c w =
  match decode_input in_data with
  | Raise e => (Raise e, c, w)
  | Ok input_data =>
    match _get_runspace T c w with
    | (Raise e, c1, w1) => (Raise e, c1, w1)
    | (Ok h, c1, w1) =>
      match script_for cmd with
      | Raise e => (Raise e, c1, w1)
      | Ok script =>
        match search cmd, shebang_text input_data with
        | Some _, Some text =>
          (Raise (interpreter_error (interpreter_of text) (transport c1)),
           c1, w1)
        | _, _ => run_pipeline T h script input_data c1 w1
        end
      end
    end
  end.
Proof.
  unfold exec_command. rewrite bind_run.
  destruct (decode_input in_data) as [input_data|e]; cbn [of_res ret raise];
    [|reflexivity].
  rewrite bind_run.
  destruct (_get_runspace T c w) as [[[h|e] c1] w1]; [|reflexivity].
  rewrite bind_run. unfold script_for.
  destruct (search cmd) as [payload|].
  - rewrite bind_run.
    destruct (decode_script payload) as [script|e];
      cbn [of_res ret raise]; [|reflexivity].
    destruct (shebang_text input_data) as [text|].
    + reflexivity.
    + cbn [ret]. finish_run.
  - cbn [ret]. finish_run.
Qed.

End Runs.

(** ** Text helpers *)

Lemma join_snoc sep lines last_line :
  join sep (lines ++ [last_line]) =
  join sep lines ++ match lines with [] => [] | _ => sep end ++ last_line.
Proof.
  induction lines as [|p rest IH]; [reflexivity|].
  destruct rest as [|q rest'].
  - cbn. reflexivity.
  - change (join sep ((p :: q :: rest') ++ [last_line]))
      with (p ++ sep ++ join sep ((q :: rest') ++ [last_line])).
    rewrite IH.
    change (join sep (p :: q :: rest')) with (p ++ sep ++ join sep (q :: rest')).
    rewrite <- !app_assoc. reflexivity.
Qed.

Lemma utf8_encode_app a b :
  utf8_encode (a ++ b) =
  match utf8_encode a, utf8_encode b with
  | Some x, Some y => Some (x ++ y)
  | _, _ => None
  end.
Proof.
  induction a as [|ch a IH]; cbn [app utf8_encode].
  - destruct (utf8_encode b); reflexivity.
  - destruct (utf8_char ch); [|reflexivity].
    rewrite IH. destruct (utf8_encode a); [|reflexivity].
    destruct (utf8_encode b); [|reflexivity].
    rewrite app_assoc. reflexivity.
Qed.

Lemma pystr_eqb_eq a b : pystr_eqb a b = true <-> a = b.
Proof.
  unfold pystr_eqb. destruct (list_eq_dec N.eq_dec a b); split;
    auto; discriminate.
Qed.

(** ** What a returning [exec_command] has done *)

Lemma run_pipeline_ok T h script input_data c1 w1 rc out err :
  result_of (run_pipeline T h script input_data c1 w1) = Ok (rc, out, err) ->
  let r := invoke_result T w1 h [script] input_data in
  let s := deliver (events r) (sink c1) in
  failure r = None
  /\ rc = derive_rc (exit_code (fst s)) (had_errors r)
  /\ utf8_encode
       (join [NL] (append_nonempty (outputs_of (events r))
                     (stdout (snd s)))) = Some out
  /\ utf8_encode
       (join [NL] (append_nonempty (errors_of (events r))
                     (stderr (snd s)))) = Some err
  /\ sink (conn_of (run_pipeline T h script input_data c1 w1))
     = (PSHost_init, PSHostUI_init).
Proof.
  unfold run_pipeline. cbv zeta.
  destruct (failure _); [discriminate|].
  destruct (utf8_encode (join [NL] (append_nonempty (outputs_of _) _)));
    [|discriminate].
  destruct (utf8_encode (join [NL] (append_nonempty (errors_of _) _)));
    [|discriminate].
  cbn. intros [= <- <- <-]. auto.
Qed.

Lemma exec_command_ok T cmd in_data c w rc out err :
  result_of (exec_command T cmd in_data c w) = Ok (rc, out, err) ->
  exists r,
    pipeline_run T cmd in_data c w = Some r /\ failure r = None /\
    let s := deliver (events r) (sink c) in
    rc = derive_rc (exit_code (fst s)) (had_errors r)
    /\ utf8_encode
         (join [NL] (append_nonempty (outputs_of (events r))
                       (stdout (snd s)))) = Some out
    /\ utf8_encode
         (join [NL] (append_nonempty (errors_of (events r))
                       (stderr (snd s)))) = Some err
    /\ sink (conn_of (exec_command T cmd in_data c w))
       = (PSHost_init, PSHostUI_init).
Proof.
  rewrite exec_command_run. unfold pipeline_run.
  destruct (decode_input in_data) as [input_data|e]; [|discriminate].
  pose proof (_get_runspace_frame T c w) as F. cbv zeta in F.
  destruct F as (Fs & _).
  destruct (_get_runspace T c w) as [[[h|e] c1] w1]; [|discriminate].
  cbn [result_of conn_of world_of fst snd] in *.
  destruct (script_for cmd) as [script|e]; [|discriminate].
  rewrite <- Fs.
  destruct (search cmd) as [payload|];
    [destruct (shebang_text input_data) as [text|]; [discriminate|]|];
    intros H; eexists; (split; [reflexivity|]);
    apply run_pipeline_ok in H; cbv zeta in H;
    destruct H as (Hf & Hrc & Ho & He & Hs); auto 10.
Qed.

(** Conversely, the call returns whenever each of its steps goes
    through. *)
Lemma exec_command_returns T cmd in_data c w input_data h script r out err :
  decode_input in_data = Ok input_data ->
  result_of (_get_runspace T c w) = Ok h ->
  script_for cmd = Ok script ->
  (is_encoded_command cmd = true -> shebang_text input_data = None) ->
  invoke_result T (world_of (_get_runspace T c w)) h [script] input_data = r ->
  failure r = None ->
  utf8_encode
    (join [NL] (append_nonempty (outputs_of (events r))
                  (stdout (snd (deliver (events r) (sink c)))))) = Some out ->
  utf8_encode
    (join [NL] (append_nonempty (errors_of (events r))
                  (stderr (snd (deliver (events r) (sink c)))))) = Some err ->
  result_of (exec_command T cmd in_data c w)
  = Ok (derive_rc (exit_code (fst (deliver (events r) (sink c))))
          (had_errors r), out, err).
Proof.
  intros Hi Hg Hs Hb Hr Hf Ho He.
  pose proof (_get_runspace_frame T c w) as F. cbv zeta in F.
  destruct F as (Fs & _).
  rewrite exec_command_run, Hi.
  destruct (_get_runspace T c w) as [[[h'|e] c1] w1]; [|discriminate].
  cbn [result_of conn_of world_of fst snd] in *.
  injection Hg as ->. rewrite Hs.
  assert (R : result_of (run_pipeline T h script input_data c1 w1)
              = Ok (derive_rc (exit_code (fst (deliver (events r) (sink c))))
                      (had_errors r), out, err)).
  { unfold run_pipeline. cbv zeta. rewrite Hr, Hf, Fs, Ho, He. reflexivity. }
  unfold is_encoded_command in Hb.
  destruct (search cmd); [rewrite (Hb eq_refl)|]; exact R.
Qed.

(** ** The exit code *)

(** C1: the exit code a returning [exec_command] gives is the one the
    host recorded during the run when that is not zero; when it is zero
    the code is 1 if the pipeline had errors and 0 if it had none.  The
    same rule gives 7 for a recorded 7 with errors, and 1 for a recorded
    0 with errors. *)
Theorem exec_command_exit_code T cmd in_data c w rc out err :
  result_of (exec_command T cmd in_data c w) = Ok (rc, out, err) ->
  (exists r,
     pipeline_run T cmd in_data c w = Some r /\
     let e := exit_code (fst (deliver (events r) (sink c))) in
     (e <> 0 -> rc = e)
     /\ (e = 0 -> had_errors r = true -> rc = 1)
     /\ (e = 0 -> had_errors r = false -> rc = 0))%Z
  /\ derive_rc 7 true = 7%Z /\ derive_rc 0 true = 1%Z
  /\ derive_rc 0 false = 0%Z.
Proof.
  intros H. split; [|repeat split].
  apply exec_command_ok in H as (r & Hr & _ & Hrc & _).
  exists r. split; [exact Hr|]. cbv zeta. subst rc. unfold derive_rc.
  destruct (Z.eqb_spec (exit_code (fst (deliver (events r) (sink c)))) 0)
    as [E|E].
  - rewrite E. repeat split; intros; try contradiction.
    + rewrite H0. reflexivity.
    + rewrite H0. reflexivity.
  - repeat split; intros; try contradiction; reflexivity.
Qed.

Lemma exec_command_exit_code_witness :
  result_of
    (exec_command (scripted exit_seven) (lit "Get-Date") None
       (psrp_local local_defaults) world0) = Ok (7%Z, [], [])
  /\ ((exists r,
        pipeline_run (scripted exit_seven) (lit "Get-Date") None
          (psrp_local local_defaults) world0 = Some r /\
        let e :=
          exit_code
            (fst (deliver (events r) (sink (psrp_local local_defaults)))) in
        (e <> 0 -> 7 = e)
        /\ (e = 0 -> had_errors r = true -> 7 = 1)
        /\ (e = 0 -> had_errors r = false -> 7 = 0))%Z
      /\ derive_rc 7 true = 7%Z /\ derive_rc 0 true = 1%Z
      /\ derive_rc 0 false = 0%Z).
Proof.
  split; [reflexivity|].
  apply (@exec_command_exit_code (scripted exit_seven) (lit "Get-Date") None
           (psrp_local local_defaults) world0 7%Z [] []).
  reflexivity.
Defined.

(** ** The script handed to the pipeline *)

Lemma script_for_plain cmd :
  is_encoded_command cmd = false -> script_for cmd = Ok (cmd ++ EXIT_SUFFIX).
Proof.
  unfold is_encoded_command, script_for.
  destruct (search cmd); [discriminate|reflexivity].
Qed.

Lemma script_for_encoded prefix payload :
  base64_text payload = true ->
  script_for (prefix ++ KEYWORD ++ payload) = decode_script payload.
Proof.
  intros Hp. unfold script_for.
  pose proof (search_complete prefix payload [] Hp eq_refl) as S.
  rewrite app_nil_r in S. rewrite S. reflexivity.
Qed.

Lemma world_of_run_pipeline T h script input_data c1 w1 :
  world_of (run_pipeline T h script input_data c1 w1)
  = record_call (PipelineInvoke h [script] input_data) w1.
Proof.
  unfold run_pipeline. cbv zeta. destruct (failure _); [reflexivity|].
  destruct (utf8_encode (join [NL] (append_nonempty (outputs_of _) _)));
    [|reflexivity].
  destruct (utf8_encode (join [NL] (append_nonempty (errors_of _) _)));
    reflexivity.
Qed.

Lemma invoke_call_kept (k : TransportCall) (l l' : list TransportCall) :
  is_invoke k = true -> filter is_invoke l = filter is_invoke l' ->
  In k l -> In k l'.
Proof.
  intros Hk E Hin.
  assert (H : In k (filter is_invoke l)) by (apply filter_In; auto).
  rewrite E in H. apply filter_In in H. tauto.
Qed.

(** The pipeline invocations of one call: at most one, and with the
    script [script_for] gives. *)
Lemma exec_command_invokes T cmd in_data c w h scripts input :
  In (PipelineInvoke h scripts input)
     (calls (world_of (exec_command T cmd in_data c w))) ->
  ~ In (PipelineInvoke h scripts input) (calls w) ->
  exists script, script_for cmd = Ok script /\ scripts = [script].
Proof.
  rewrite exec_command_run. intros Hin Hnew.
  destruct (decode_input in_data) as [input_data|e];
    [|contradiction].
  pose proof (_get_runspace_frame T c w) as F. cbv zeta in F.
  destruct F as (_ & _ & _ & Fc).
  destruct (_get_runspace T c w) as [[r c1] w1].
  cbn [world_of conn_of snd fst] in Fc.
  assert (Hold : ~ In (PipelineInvoke h scripts input) (calls w1)).
  { intros H. apply Hnew. revert H. apply invoke_call_kept; auto. }
  destruct r as [h'|e]; [|contradiction].
  destruct (script_for cmd) as [script|e]; [|contradiction].
  assert (Hrun :
    In (PipelineInvoke h scripts input)
       (calls (world_of (run_pipeline T h' script input_data c1 w1))) ->
    exists script0, Ok script = Ok script0 /\ scripts = [script0]).
  { rewrite world_of_run_pipeline. cbn [record_call calls].
    intros H. apply in_app_or in H as [H|[H|[]]]; [contradiction|].
    injection H as <- <- <-. eauto. }
  destruct (search cmd); [destruct (shebang_text input_data)|]; auto.
  contradiction.
Qed.

(** ** Which commands count as encoded *)

Lemma at_dollar_cases tail :
  at_dollar tail = true -> tail = [] \/ tail = [NL].
Proof.
  destruct tail as [|x [|y t]]; cbn; try discriminate; auto.
  intros H. apply N.eqb_eq in H. subst. auto.
Qed.

(** C8, as the pattern decides it: a command is an encoded command
    exactly when, with at most one final newline set aside, it ends with
    [-EncodedCommand], a space, and zero or more groups of four base64
    characters of which the last may carry one or two padding characters.
    Nothing needs to precede the keyword. *)
Theorem encoded_command_classification cmd :
  is_encoded_command cmd = true <->
  exists prefix payload,
    base64_text payload = true
    /\ (cmd = prefix ++ lit "-EncodedCommand " ++ payload
        \/ cmd = prefix ++ lit "-EncodedCommand " ++ payload ++ [NL]).
Proof.
  change (lit "-EncodedCommand ") with KEYWORD.
  unfold is_encoded_command. split.
  - destruct (search cmd) as [payload|] eqn:E; [|discriminate].
    intros _. apply search_sound in E as (prefix & tail & Ht & Hp & ->).
    exists prefix, payload. split; [exact Hp|].
    apply at_dollar_cases in Ht as [-> | ->]; [left|right]; auto.
    rewrite app_nil_r. reflexivity.
  - intros (prefix & payload & Hp & [-> | ->]).
    + pose proof (search_complete prefix payload [] Hp eq_refl) as S.
      rewrite app_nil_r in S. rewrite S. reflexivity.
    + rewrite (search_complete prefix payload [NL] Hp eq_refl). reflexivity.
Qed.

(** A command of the form the claim describes never ends in a newline. *)
Lemma marker_and_payload_last marker m cmd :
  rev marker = 32%N :: m ->
  ends_with_marker_and_payload marker cmd ->
  hd_error (rev cmd) <> Some NL.
Proof.
  intros Hm (prefix & payload & Hp & ->).
  rewrite !rev_app_distr.
  destruct (rev payload) as [|x r] eqn:E.
  - cbn [app]. rewrite Hm. cbn. discriminate.
  - cbn. intros [= ->].
    apply base64_text_chars in Hp. rewrite Forall_forall in Hp.
    assert (Hin : In NL payload).
    { apply in_rev. rewrite E. left. reflexivity. }
    apply Hp in Hin. discriminate Hin.
Qed.

(** C8 as stated fails on [powershell -EncodedCommand AAAA] followed by
    a newline: the pattern accepts it, yet it does not end with the
    keyword and a base64 payload, whether or not a space is required
    before the keyword. *)
Lemma newline_terminated_is_encoded :
  is_encoded_command newline_terminated = true
  /\ ~ ends_with_marker_and_payload SPACED_KEYWORD newline_terminated
  /\ ~ ends_with_marker_and_payload KEYWORD newline_terminated.
Proof.
  split; [reflexivity|]. split; intros H.
  - eapply marker_and_payload_last in H; [|reflexivity].
    apply H. reflexivity.
  - eapply marker_and_payload_last in H; [|reflexivity].
    apply H. reflexivity.
Qed.

(** The keyword needs no space before it: the pattern accepts a command
    that is nothing but the keyword and a payload. *)
Lemma keyword_without_space_is_encoded :
  is_encoded_command (lit "-EncodedCommand AAAA") = true
  /\ ~ ends_with_marker_and_payload SPACED_KEYWORD
         (lit "-EncodedCommand AAAA").
Proof.
  split; [reflexivity|].
  intros (prefix & payload & Hp & E).
  assert (L : List.length (prefix ++ SPACED_KEYWORD ++ payload) = 20).
  { rewrite <- E. reflexivity. }
  rewrite !length_app in L. cbn [SPACED_KEYWORD List.length] in L.
  destruct payload as [|a [|b [|c [|d r]]]]; try discriminate Hp.
  - destruct prefix as [|p0 [|p1 [|p2 [|p3 pr]]]];
      cbn [List.length] in L; try lia.
    cbv in E. discriminate E.
  - cbn [List.length] in L. lia.
Qed.

(** ** Interpreter lines in the piped input *)

Lemma shebang_text_started text :
  starts_with_shebang text = true -> shebang_text (Some text) = Some text.
Proof.
  destruct text as [|a t]; [discriminate|].
  cbn [shebang_text]. intros ->. reflexivity.
Qed.

Lemma _get_runspace_needs_psrp T c w h :
  result_of (_get_runspace T c w) = Ok h -> HAS_PSRP T = true.
Proof.
  unfold _get_runspace. destruct (HAS_PSRP T); [reflexivity|discriminate].
Qed.

(** C3 as stated fails twice.  A command that is not encoded runs with
    input that begins with [#!]: the pipeline is invoked and the call
    returns.  And the refused call on a connection that was never opened
    has opened the runspace by the time it fails. *)
Lemma shebang_not_always_rejected :
  starts_with_shebang shebang_payload = true
  /\ result_of (exec_command (scripted silent) (lit "python -")
                  (Some shebang_payload) (psrp_winrm winrm_defaults) world0)
     = Ok (0%Z, [], [])
  /\ filter is_invoke
       (calls (world_of (exec_command (scripted silent) (lit "python -")
                           (Some shebang_payload)
                           (psrp_winrm winrm_defaults) world0)))
     = [PipelineInvoke 0 [lit "python -" ++ [NL] ++ lit "exit $LASTEXITCODE"]
          (Some shebang_payload)]
  /\ _connected (psrp_winrm winrm_defaults) = false
  /\ _connected
       (conn_of (exec_command (scripted silent) encoded_dir
                   (Some shebang_payload) (psrp_winrm winrm_defaults)
                   world0)) = true
  /\ _runspace
       (conn_of (exec_command (scripted silent) encoded_dir
                   (Some shebang_payload) (psrp_winrm winrm_defaults)
                   world0)) = Some 0
  /\ calls (world_of (exec_command (scripted silent) encoded_dir
                        (Some shebang_payload) (psrp_winrm winrm_defaults)
                        world0))
     = [PoolCreated 0 (WSMan (winrm_connection_info winrm_defaults));
        PoolOpen 0].
Proof. repeat split. Qed.

(** ** The sink after a call *)

(** C4: the sink is meant to be empty, with exit code 0, after every
    call ("Reset for the next invocation"), and it is on the path that
    returns.  The code at a run whose pipeline fails after the host has
    written [partial], the error line [oops] and the exit code 3: the
    call raises and the sink still holds all three. *)
Lemma failed_run_leaves_sink :
  result_of (exec_command (scripted noisy_failure) (lit "Get-Item x") None
               (psrp_local local_defaults) world0)
  = Raise (TransportError (lit "PipelineFailed"))
  /\ stdout (_ps_host_ui
               (conn_of (exec_command (scripted noisy_failure)
                           (lit "Get-Item x") None
                           (psrp_local local_defaults) world0)))
     = lit "partial"
  /\ stderr (_ps_host_ui
               (conn_of (exec_command (scripted noisy_failure)
                           (lit "Get-Item x") None
                           (psrp_local local_defaults) world0)))
     = lit "oops" ++ [NL]
  /\ exit_code (_ps_host
                  (conn_of (exec_command (scripted noisy_failure)
                              (lit "Get-Item x") None
                              (psrp_local local_defaults) world0)))
     = 3%Z.
Proof. repeat split. Qed.

(** What the failed run left in the sink surfaces in the result of the
    next call on the same connection. *)
Lemma failed_run_leaks_into_next_call :
  let failed :=
    exec_command (scripted noisy_failure) (lit "Get-Item x") None
      (psrp_local local_defaults) world0 in
  result_of (exec_command (scripted silent) (lit "Get-Date") None
               (conn_of failed) (world_of failed))
  = Ok (3%Z, lit "partial", lit "oops" ++ [NL]).
Proof. reflexivity. Qed.

(** ** Order of the returned text *)

Lemma joined_with_host_text lines host_text :
  join [NL] (append_nonempty lines host_text)
  = join [NL] lines ++ separator lines host_text ++ host_text.
Proof.
  destruct host_text as [|x t].
  - cbn [append_nonempty]. destruct lines; cbn; rewrite ?app_nil_r;
      reflexivity.
  - cbn [append_nonempty]. rewrite join_snoc.
    destruct lines; reflexivity.
Qed.

Lemma utf8_encode_separator lines host_text :
  utf8_encode (separator lines host_text) = Some (separator lines host_text).
Proof. destruct lines, host_text; reflexivity. Qed.

Lemma encoded_in_order lines host_text out :
  utf8_encode (join [NL] (append_nonempty lines host_text)) = Some out ->
  exists structured host_bytes,
    utf8_encode (join [NL] lines) = Some structured
    /\ utf8_encode host_text = Some host_bytes
    /\ out = structured ++ separator lines host_text ++ host_bytes.
Proof.
  rewrite joined_with_host_text, !utf8_encode_app, utf8_encode_separator.
  destruct (utf8_encode (join [NL] lines)) as [s|]; [|discriminate].
  destruct (utf8_encode host_text) as [b|]; [|discriminate].
  intros [= <-]. exists s, b. auto.
Qed.

(** C5: in what a returning [exec_command] gives back, the bytes of the
    structured output lines come first and the host callback text that
    was buffered comes after them, and likewise the error records come
    before the buffered host error text, in whatever order the remote
    emitted them during the run. *)
Theorem host_text_after_structured T cmd in_data c w rc out err :
  result_of (exec_command T cmd in_data c w) = Ok (rc, out, err) ->
  exists r,
    pipeline_run T cmd in_data c w = Some r /\
    let ui := snd (deliver (events r) (sink c)) in
    (exists structured host_bytes,
       utf8_encode (join [NL] (outputs_of (events r))) = Some structured
       /\ utf8_encode (stdout ui) = Some host_bytes
       /\ out = structured
                ++ separator (outputs_of (events r)) (stdout ui)
                ++ host_bytes)
    /\ (exists structured host_bytes,
          utf8_encode (join [NL] (errors_of (events r))) = Some structured
          /\ utf8_encode (stderr ui) = Some host_bytes
          /\ err = structured
                   ++ separator (errors_of (events r)) (stderr ui)
                   ++ host_bytes).
Proof.
  intros H. apply exec_command_ok in H as (r & Hr & _ & _ & Ho & He & _).
  exists r. split; [exact Hr|]. cbv zeta.
  split; apply encoded_in_order; assumption.
Qed.

Lemma host_text_after_structured_witness :
  result_of (exec_command (scripted interleaved) encoded_dir None
               (psrp_local local_defaults) world0)
  = Ok (1%Z, lit "a" ++ [NL] ++ lit "b" ++ [NL] ++ lit "first" ++ [NL]
             ++ lit "last",
        lit "E" ++ [NL] ++ lit "e1" ++ [NL])
  /\ exists r,
       pipeline_run (scripted interleaved) encoded_dir None
         (psrp_local local_defaults) world0 = Some r /\
       let ui := snd (deliver (events r) (sink (psrp_local local_defaults))) in
       (exists structured host_bytes,
          utf8_encode (join [NL] (outputs_of (events r))) = Some structured
          /\ utf8_encode (stdout ui) = Some host_bytes
          /\ lit "a" ++ [NL] ++ lit "b" ++ [NL] ++ lit "first" ++ [NL]
             ++ lit "last"
             = structured
               ++ separator (outputs_of (events r)) (stdout ui)
               ++ host_bytes)
       /\ (exists structured host_bytes,
             utf8_encode (join [NL] (errors_of (events r))) = Some structured
             /\ utf8_encode (stderr ui) = Some host_bytes
             /\ lit "E" ++ [NL] ++ lit "e1" ++ [NL]
                = structured
                  ++ separator (errors_of (events r)) (stderr ui)
                  ++ host_bytes).
Proof.
  split; [reflexivity|].
  apply (host_text_after_structured (scripted interleaved) encoded_dir None
           (psrp_local local_defaults) world0 1%Z).
  reflexivity.
Defined.

(** ** The lazy runspace accessor *)

Lemma repeat_get_runspace_held T n : forall c w h,
  HAS_PSRP T = true -> _runspace c = Some h ->
  repeat_get_runspace T n h c w = (Ok h, c, w).
Proof.
  induction n as [|n IH]; intros c w h HP Hr.
  - reflexivity.
  - cbn [repeat_get_runspace]. rewrite bind_run.
    rewrite (_get_runspace_held T c w h HP Hr). apply IH; assumption.
Qed.

(** C6: on a connection without a runspace, when the library is there
    and the pool opens, the accessor creates one pool and opens it once;
    from then on, and as long as the connection holds that runspace,
    every call of the accessor returns the same handle and changes
    nothing: no pool is created and none is opened. *)
Theorem _get_runspace_idempotent T c w info :
  HAS_PSRP T = true ->
  _runspace c = None ->
  result_of (_get_connection_info T c w) = Ok info ->
  open_result T
    (record_call (PoolCreated (next_handle w) info)
       (set_pool_state (next_handle w) BeforeOpen (fresh_pool w)))
    (next_handle w) = None ->
  let h := next_handle w in
  let c1 := conn_of (_get_runspace T c w) in
  let w1 := world_of (_get_runspace T c w) in
  result_of (_get_runspace T c w) = Ok h
  /\ calls w1 = calls w ++ [PoolCreated h info; PoolOpen h]
  /\ pool_state w1 h = Opened
  /\ _runspace c1 = Some h /\ _connected c1 = true
  /\ (forall n, repeat_get_runspace T n h c1 w1 = (Ok h, c1, w1))
  /\ (forall c2 w2, _runspace c2 = Some h ->
        _get_runspace T c2 w2 = (Ok h, c2, w2)).
Proof.
  intros HP Hr Hi Ho. cbv zeta.
  assert (G : _get_runspace T c w =
    (Ok (next_handle w),
     set_connected true (set_runspace (Some (next_handle w)) c),
     set_pool_state (next_handle w) Opened
       (record_call (PoolOpen (next_handle w))
          (record_call (PoolCreated (next_handle w) info)
             (set_pool_state (next_handle w) BeforeOpen (fresh_pool w)))))).
  { unfold _get_runspace. rewrite HP. cbn [negb].
    rewrite bind_run. unfold self at 1. rewrite Hr.
    rewrite bind_run.
    destruct (_get_connection_info T c w) as [[[i|e] c0] w0] eqn:E;
      [|discriminate Hi].
    assert (c0 = c /\ w0 = w) as [-> ->].
    { revert E. unfold _get_connection_info, bind, self.
      destruct (plugin c) as [|o|o]; cbn;
        try destruct (wsman_result T (winrm_connection_info o)); cbn;
        intros [= _ <- <-]; auto; discriminate. }
    cbn in Hi. injection Hi as ->.
    rewrite !bind_run. unfold new_pool. rewrite !bind_run.
    unfold update at 1. rewrite !bind_run.
    unfold pool_open. rewrite Ho. reflexivity. }
  rewrite G. cbn [result_of conn_of world_of fst snd].
  repeat split.
  - cbn. rewrite <- app_assoc. reflexivity.
  - cbn. rewrite Nat.eqb_refl. reflexivity.
  - intros n. apply repeat_get_runspace_held; auto.
  - intros c2 w2 H2. apply _get_runspace_held; auto.
Qed.

Lemma _get_runspace_idempotent_witness :
  HAS_PSRP (scripted silent) = true
  /\ _runspace (psrp_winrm winrm_defaults) = None
  /\ result_of (_get_connection_info (scripted silent)
                  (psrp_winrm winrm_defaults) world0)
     = Ok (WSMan (winrm_connection_info winrm_defaults))
  /\ (let c := psrp_winrm winrm_defaults in
      let info := WSMan (winrm_connection_info winrm_defaults) in
      let T := scripted silent in
      let h := next_handle world0 in
      let c1 := conn_of (_get_runspace T c world0) in
      let w1 := world_of (_get_runspace T c world0) in
      result_of (_get_runspace T c world0) = Ok h
      /\ calls w1 = calls world0 ++ [PoolCreated h info; PoolOpen h]
      /\ pool_state w1 h = Opened
      /\ _runspace c1 = Some h /\ _connected c1 = true
      /\ (forall n, repeat_get_runspace T n h c1 w1 = (Ok h, c1, w1))
      /\ (forall c2 w2, _runspace c2 = Some h ->
            _get_runspace T c2 w2 = (Ok h, c2, w2))).
Proof.
  repeat (split; [reflexivity|]).
  apply (_get_runspace_idempotent (scripted silent)
           (psrp_winrm winrm_defaults) world0
           (WSMan (winrm_connection_info winrm_defaults)));
    reflexivity.
Defined.

(** ** Closing and resetting *)

(** C7: on a connection that is not connected, as one that was never
    opened is, [close] returns without raising, makes no call on the
    transport and changes nothing, and so does [reset]. *)
Theorem close_reset_unopened T c w :
  _connected c = false ->
  close T c w = (Ok tt, c, w) /\ reset T c w = (Ok tt, c, w).
Proof.
  intros H. unfold close, reset. rewrite !bind_run. unfold self.
  rewrite H. split; reflexivity.
Qed.

Lemma close_reset_unopened_witness :
  _connected (psrp_winrm winrm_defaults) = false
  /\ close (scripted silent) (psrp_winrm winrm_defaults) world0
     = (Ok tt, psrp_winrm winrm_defaults, world0)
  /\ reset (scripted silent) (psrp_winrm winrm_defaults) world0
     = (Ok tt, psrp_winrm winrm_defaults, world0).
Proof.
  split; [reflexivity|].
  apply (close_reset_unopened (scripted silent) (psrp_winrm winrm_defaults)
           world0).
  reflexivity.
Defined.

(** ** The WinRM connection info *)

(** C9: with no port configured the WinRM resolver gives port 5986
    when [use_tls] is set and port 5985 otherwise; whatever the port,
    the scheme is [https] when [use_tls] is set and [http] otherwise,
    and certificate verification is off exactly when [cert_validation]
    is [ignore].  These are the arguments the plugin hands to
    [psrp.WSManInfo]: the accessor of the WinRM plugin gives the
    connection info built from them, or raises what that constructor
    raises, and changes nothing either way. *)
Theorem winrm_port_scheme_verify o :
  (opt_port o = None ->
   (opt_use_tls o = true -> port (winrm_connection_info o) = 5986%Z)
   /\ (opt_use_tls o = false -> port (winrm_connection_info o) = 5985%Z))
  /\ (opt_use_tls o = true -> scheme (winrm_connection_info o) = lit "https")
  /\ (opt_use_tls o = false -> scheme (winrm_connection_info o) = lit "http")
  /\ (verify (winrm_connection_info o) = false
      <-> opt_cert_validation o = Some (lit "ignore"))
  /\ (forall T w,
        _get_connection_info T (psrp_winrm o) w
        = (match wsman_result T (winrm_connection_info o) with
           | None => Ok (WSMan (winrm_connection_info o))
           | Some e => Raise e
           end, psrp_winrm o, w)).
Proof.
  split; [|split; [|split; [|split]]].
  - intros Hp. unfold winrm_connection_info. cbn [port]. rewrite Hp.
    split; intros ->; reflexivity.
  - intros Ht. unfold winrm_connection_info. cbn [scheme]. rewrite Ht.
    reflexivity.
  - intros Ht. unfold winrm_connection_info. cbn [scheme]. rewrite Ht.
    reflexivity.
  - unfold winrm_connection_info. cbn [verify]. split.
    + destruct (opt_cert_validation o) as [v|]; [|discriminate].
      intros H. apply negb_false_iff, pystr_eqb_eq in H. subst. reflexivity.
    + intros ->. reflexivity.
  - intros T w. unfold _get_connection_info. rewrite bind_run.
    unfold self. cbn [plugin psrp_winrm Connection_init].
    destruct (wsman_result T (winrm_connection_info o)); reflexivity.
Qed.

Lemma winrm_port_scheme_verify_witness :
  let o := winrm_tls_ignore in
  opt_port o = None /\ opt_use_tls o = true
  /\ opt_cert_validation o = Some (lit "ignore")
  /\ port (winrm_connection_info o) = 5986%Z
  /\ scheme (winrm_connection_info o) = lit "https"
  /\ verify (winrm_connection_info o) = false
  /\ (forall T w,
        _get_connection_info T (psrp_winrm o) w
        = (match wsman_result T (winrm_connection_info o) with
           | None => Ok (WSMan (winrm_connection_info o))
           | Some e => Raise e
           end, psrp_winrm o, w)).
Proof.
  cbv zeta.
  destruct (winrm_port_scheme_verify winrm_tls_ignore)
    as (Hport & Htls & _ & Hverify & Hinfo).
  assert (Hp : opt_port winrm_tls_ignore = None) by reflexivity.
  assert (Ht : opt_use_tls winrm_tls_ignore = true) by reflexivity.
  assert (Hc : opt_cert_validation winrm_tls_ignore = Some (lit "ignore"))
    by reflexivity.
  split; [exact Hp|]. split; [exact Ht|]. split; [exact Hc|].
  split; [exact (proj1 (Hport Hp) Ht)|].
  split; [exact (Htls Ht)|].
  split; [exact (proj2 Hverify Hc)|].
  exact Hinfo.
Defined.

(** With an explicit port the port is the configured one, and the
    scheme and the verification rule are unchanged. *)
Example winrm_explicit_port :
  port (winrm_connection_info winrm_basic_http) = 8080%Z
  /\ scheme (winrm_connection_info winrm_basic_http) = lit "http"
  /\ verify (winrm_connection_info winrm_basic_http) = false.
Proof. repeat split. Qed.

(** A constructor that refuses the arguments stops the accessor before
    any pool exists. *)
Example refused_connection_info :
  _get_runspace validating (psrp_winrm winrm_basic_http) world0
  = (Raise (ValueError (lit "basic auth needs https")),
     psrp_winrm winrm_basic_http, world0).
Proof. reflexivity. Qed.

(** ** Progress records *)

Lemma deliver_without_progress evs : forall s,
  deliver (filter (fun e => negb (is_progress e)) evs) s = deliver evs s.
Proof.
  induction evs as [|e evs IH]; intros s; [reflexivity|].
  destruct e as [t|t|k]; cbn [filter is_progress negb deliver]; auto.
  destruct k; cbn [filter is_progress negb deliver]; auto.
  destruct s. cbn [host_call write_progress]. auto.
Qed.

Lemma outputs_without_progress evs :
  outputs_of (filter (fun e => negb (is_progress e)) evs) = outputs_of evs.
Proof.
  induction evs as [|e evs IH]; [reflexivity|].
  destruct e as [t|t|k]; cbn [filter is_progress negb outputs_of];
    try (rewrite IH; reflexivity).
  destruct k; cbn [filter is_progress negb outputs_of]; auto.
Qed.

Lemma errors_without_progress evs :
  errors_of (filter (fun e => negb (is_progress e)) evs) = errors_of evs.
Proof.
  induction evs as [|e evs IH]; [reflexivity|].
  destruct e as [t|t|k]; cbn [filter is_progress negb errors_of];
    try (rewrite IH; reflexivity).
  destruct k; cbn [filter is_progress negb errors_of]; auto.
Qed.

Lemma _get_runspace_without_progress T c w :
  _get_runspace (without_progress T) c w = _get_runspace T c w.
Proof. reflexivity. Qed.

(** C10: [write_progress] leaves the sink as it is, whatever its
    arguments: both buffers and the exit code are unchanged.  Hence the
    result of [exec_command], and the connection it leaves, are what
    they would be had the remote sent no progress record at all. *)
Theorem write_progress_inert :
  (forall args h ui,
     host_call (WriteProgress args) (h, ui) = (h, ui)
     /\ stdout (write_progress args ui) = stdout ui
     /\ stderr (write_progress args ui) = stderr ui)
  /\ (forall T cmd in_data c w,
        result_of (exec_command (without_progress T) cmd in_data c w)
        = result_of (exec_command T cmd in_data c w)
        /\ conn_of (exec_command (without_progress T) cmd in_data c w)
           = conn_of (exec_command T cmd in_data c w)).
Proof.
  split; [intros; repeat split|].
  intros T cmd in_data c w. rewrite !exec_command_run.
  rewrite _get_runspace_without_progress.
  destruct (decode_input in_data) as [input_data|e]; [|auto].
  destruct (_get_runspace T c w) as [[[h|e] c1] w1]; [|auto].
  destruct (script_for cmd) as [script|e]; [|auto].
  assert (R : forall inp,
    run_pipeline (without_progress T) h script inp c1 w1
    = run_pipeline T h script inp c1 w1).
  { intros inp. unfold run_pipeline.
    cbn [without_progress invoke_result events had_errors failure].
    rewrite deliver_without_progress, outputs_without_progress,
      errors_without_progress. reflexivity. }
  destruct (search cmd); [destruct (shebang_text input_data)|];
    rewrite ?R; auto.
Qed.

(** ** Worked runs *)

Example get_date_run :
  result_of
    (exec_command
       (scripted {| events := [Output (lit "2024-01-01")];
                    had_errors := false; failure := None |})
       (lit "Get-Date") None (psrp_local local_defaults) world0)
  = Ok (0%Z, lit "2024-01-01", []).
Proof. reflexivity. Qed.

Example encoded_dir_payload :
  search encoded_dir = Some (lit "ZABpAHIA")
  /\ script_for encoded_dir = Ok (lit "dir").
Proof. split; reflexivity. Qed.

Example odd_payload_does_not_decode :
  search (lit "powershell -EncodedCommand AA==") = Some (lit "AA==")
  /\ script_for (lit "powershell -EncodedCommand AA==")
     = Raise UnicodeDecodeError.
Proof. split; reflexivity. Qed.

Example malformed_padding_is_plain :
  is_encoded_command (lit "powershell -EncodedCommand ZABpA===") = false
  /\ is_encoded_command (lit "powershell -EncodedCommand ZABpAH=") = false
  /\ is_encoded_command (lit "-EncodedCommand ") = true.
Proof. repeat split. Qed.

Example winrm_tls_defaults :
  let o :=
    {| opt_hostname := Some (lit "server01");
       opt_remote_user := None; opt_remote_password := None;
       opt_use_tls := true; opt_port := None;
       opt_path := Some (lit "wsman"); opt_auth := Some (lit "negotiate");
       opt_cert_validation := Some (lit "ignore") |} in
  port (winrm_connection_info o) = 5986%Z
  /\ scheme (winrm_connection_info o) = lit "https"
  /\ verify (winrm_connection_info o) = false.
Proof. repeat split. Qed.

(** A pool whose [open] raised stays on the connection: the next call
    of the accessor hands it out without opening it. *)
Example failed_open_is_kept :
  let T :=
    {| HAS_PSRP := true; PSRP_IMP_ERR := [];
       wsman_result := fun _ => None;
       open_result := fun _ _ => Some (TransportError (lit "refused"));
       close_result := fun _ _ => None;
       invoke_result := fun _ _ _ _ => silent;
       transfer_result := fun _ _ => None |} in
  let first := _get_runspace T (psrp_local local_defaults) world0 in
  result_of first = Raise (TransportError (lit "refused"))
  /\ _runspace (conn_of first) = Some 0
  /\ _connected (conn_of first) = false
  /\ result_of (_get_runspace T (conn_of first) (world_of first)) = Ok 0
  /\ filter (fun k => match k with PoolOpen _ => true | _ => false end)
       (calls (world_of (_get_runspace T (conn_of first) (world_of first))))
     = [PoolOpen 0].
Proof. repeat split. Qed.

(** * Further properties of the plugins *)

(** ** The sink as an accumulator *)

Lemma host_call_appends k h a b c d :
  host_call k (h, {| stdout := a ++ b; stderr := c ++ d |})
  = (fst (host_call k (h, {| stdout := b; stderr := d |})),
     {| stdout := a ++ stdout (snd (host_call k (h, {| stdout := b;
                                                       stderr := d |})));
        stderr := c ++ stderr (snd (host_call k (h, {| stdout := b;
                                                       stderr := d |}))) |}).
Proof.
  destruct k; cbn [host_call fst snd];
    unfold write, write_debug_line, write_error_line, write_line,
      write_verbose_line, write_warning_line, write_progress,
      stdout_write, stderr_write;
    cbn [stdout stderr]; rewrite ?app_assoc; reflexivity.
Qed.

Lemma deliver_appends evs : forall h a b c d,
  deliver evs (h, {| stdout := a ++ b; stderr := c ++ d |})
  = (fst (deliver evs (h, {| stdout := b; stderr := d |})),
     {| stdout := a ++ stdout (snd (deliver evs (h, {| stdout := b;
                                                       stderr := d |})));
        stderr := c ++ stderr (snd (deliver evs (h, {| stdout := b;
                                                       stderr := d |}))) |}).
Proof.
  induction evs as [|e evs IH]; intros h a b c d.
  - reflexivity.
  - destruct e as [t|t|k]; cbn [deliver]; try apply IH.
    rewrite host_call_appends.
    destruct (host_call k (h, {| stdout := b; stderr := d |}))
      as [h' [b' d']].
    cbn [fst snd stdout stderr]. apply IH.
Qed.

(** X1: what a run leaves in the sink is what the sink held before,
    followed by what the same run would have left in an empty sink; the
    exit code it leaves does not depend on the buffers.  No callback
    erases or reorders text that is already buffered. *)
Theorem sink_keeps_earlier_text evs h ui :
  stdout (snd (deliver evs (h, ui)))
  = stdout ui ++ stdout (snd (deliver evs (h, PSHostUI_init)))
  /\ stderr (snd (deliver evs (h, ui)))
     = stderr ui ++ stderr (snd (deliver evs (h, PSHostUI_init)))
  /\ fst (deliver evs (h, ui)) = fst (deliver evs (h, PSHostUI_init)).
Proof.
  destruct ui as [o e].
  pose proof (deliver_appends evs h o [] e []) as H.
  rewrite !app_nil_r in H. unfold PSHostUI_init. rewrite H.
  cbn [fst snd stdout stderr]. auto.
Qed.

(** X2: the error buffer receives the lines of the [write_error_line]
    calls, each followed by a newline, in the order of the calls, and
    nothing else: no other callback, output object or error record
    writes to it. *)
Theorem stderr_holds_error_lines evs : forall s,
  stderr (snd (deliver evs s))
  = stderr (snd s) ++ List.concat (map (fun l => l ++ [NL]) (error_lines evs)).
Proof.
  induction evs as [|e evs IH]; intros [h ui].
  - cbn. rewrite app_nil_r. reflexivity.
  - destruct e as [t|t|k]; cbn [deliver error_lines]; try apply IH.
    destruct k; cbn [host_call error_lines]; rewrite IH; try reflexivity.
    cbn. rewrite <- app_assoc. reflexivity.
Qed.

(** X3: the exit code a run leaves in the sink is the code of its last
    [set_should_exit] call; a run without such a call leaves the code
    the sink held before. *)
Theorem last_exit_signal_wins evs : forall s,
  exit_code (fst (deliver evs s))
  = match last_exit_signal evs with
    | Some n => n
    | None => exit_code (fst s)
    end.
Proof.
  induction evs as [|e evs IH]; intros [h ui].
  - reflexivity.
  - destruct e as [t|t|k]; cbn [deliver last_exit_signal]; try apply IH.
    destruct k; cbn [host_call last_exit_signal]; rewrite IH;
      try reflexivity.
    destruct (last_exit_signal evs); reflexivity.
Qed.

(** ** The session methods, step by step *)

Lemma _get_connection_info_run T c w :
  _get_connection_info T c w
  = (match connection_info_of T (plugin c) with
     | Ok i => Ok i
     | Raise e => Raise e
     end, c, w).
Proof.
  unfold _get_connection_info. rewrite bind_run. unfold self.
  destruct (plugin c) as [|o|o]; cbn [connection_info_of]; try reflexivity.
  destruct (wsman_result T (winrm_connection_info o)); reflexivity.
Qed.

Lemma _get_runspace_fresh T c w :
  HAS_PSRP T = true -> _runspace c = None ->
  _get_runspace T c w =
  match connection_info_of T (plugin c) with
  | Raise e => (Raise e, c, w)
  | Ok info =>
    let h := next_handle w in
    let w1 := with_new_pool info w in
    match open_result T w1 h with
    | None =>
      (Ok h, set_connected true (set_runspace (Some h) c),
       set_pool_state h Opened (record_call (PoolOpen h) w1))
    | Some e =>
      (Raise e, set_runspace (Some h) c,
       set_pool_state h Broken (record_call (PoolOpen h) w1))
    end
  end.
Proof.
  intros HP Hr. unfold _get_runspace. rewrite HP. cbn [negb].
  rewrite bind_run. unfold self at 1. rewrite Hr.
  rewrite bind_run, _get_connection_info_run.
  destruct (connection_info_of T (plugin c)) as [info|e]; [|reflexivity].
  rewrite !bind_run. unfold new_pool. rewrite !bind_run.
  unfold update at 1. rewrite !bind_run. unfold pool_open, with_new_pool.
  cbv zeta. destruct (open_result T _ _); reflexivity.
Qed.

Lemma _get_runspace_missing T c w :
  HAS_PSRP T = false ->
  _get_runspace T c w
  = (Raise (AnsibleError
              (lit "pypsrp or dependencies are not installed: "
               ++ PSRP_IMP_ERR T)), c, w).
Proof. intros H. unfold _get_runspace. rewrite H. reflexivity. Qed.

Lemma close_run T c w :
  close T c w =
  if negb (_connected c) then (Ok tt, c, w)
  else
    match _get_runspace T c w with
    | (Raise e, c1, w1) => (Raise e, c1, w1)
    | (Ok h, c1, w1) =>
      if is_Opened (pool_state w1 h) then
        match close_result T w1 h with
        | None =>
          (Ok tt, cleared c1,
           set_pool_state h Closed (record_call (PoolClose h) w1))
        | Some e => (Raise e, c1, record_call (PoolClose h) w1)
        end
      else (Ok tt, cleared c1, w1)
    end.
Proof.
  unfold close. rewrite bind_run. unfold self at 1.
  destruct (_connected c); cbn [negb]; [|reflexivity].
  rewrite bind_run.
  destruct (_get_runspace T c w) as [[[h|e] c1] w1]; [|reflexivity].
  rewrite bind_run. unfold pool_get_state at 1. rewrite bind_run.
  destruct (is_Opened (pool_state w1 h)).
  - unfold pool_close. destruct (close_result T w1 h); reflexivity.
  - reflexivity.
Qed.

Lemma reset_run T c w :
  reset T c w =
  if negb (_connected c) then (Ok tt, c, w)
  else
    match close T c w with
    | (Raise e, c1, w1) => (Raise e, c1, w1)
    | (Ok _, c1, w1) =>
      match _get_runspace T c1 w1 with
      | (Raise e, c2, w2) => (Raise e, c2, w2)
      | (Ok _, c2, w2) => (Ok tt, c2, w2)
      end
    end.
Proof.
  unfold reset. rewrite bind_run. unfold self at 1.
  destruct (_connected c); cbn [negb]; [|reflexivity].
  rewrite bind_run.
  destruct (close T c w) as [[[u|e] c1] w1]; [|reflexivity].
  rewrite bind_run.
  destruct (_get_runspace T c1 w1) as [[[h|e] c2] w2]; reflexivity.
Qed.

Lemma transfer_run T k c w :
  transfer T k c w
  = (match transfer_result T w k with
     | None => Ok tt
     | Some e => Raise e
     end, c, record_call k w).
Proof. unfold transfer. destruct (transfer_result T w k); reflexivity. Qed.

Lemma same_session_refl c : same_session c c.
Proof. repeat split. Qed.

Lemma same_session_set_sink s c : same_session (set_sink s c) c.
Proof. repeat split. Qed.

Lemma run_pipeline_session T h script input_data c1 w1 :
  same_session (conn_of (run_pipeline T h script input_data c1 w1)) c1.
Proof.
  unfold run_pipeline. cbv zeta.
  destruct (failure _); [apply same_session_set_sink|].
  destruct (utf8_encode (join [NL] (append_nonempty (outputs_of _) _)));
    [|apply same_session_set_sink].
  destruct (utf8_encode (join [NL] (append_nonempty (errors_of _) _)));
    apply same_session_set_sink.
Qed.

(** What [exec_command] leaves of the connection is what the accessor
    left, up to the sink; a call that fails on its input leaves the
    connection and the world as they were. *)
Lemma exec_command_session T cmd in_data c w :
  (decode_input in_data = Raise UnicodeDecodeError
   /\ exec_command T cmd in_data c w = (Raise UnicodeDecodeError, c, w))
  \/ same_session (conn_of (exec_command T cmd in_data c w))
                  (conn_of (_get_runspace T c w)).
Proof.
  rewrite exec_command_run.
  destruct (decode_input in_data) as [input_data|e] eqn:D.
  - right.
    destruct (_get_runspace T c w) as [[[h|e] c1] w1];
      [|apply same_session_refl].
    destruct (script_for cmd) as [script|e]; [|apply same_session_refl].
    destruct (search cmd); [destruct (shebang_text input_data)|];
      cbn [conn_of fst snd];
      auto using same_session_refl, run_pipeline_session.
  - left. unfold decode_input in D.
    destruct in_data as [[|b0 b]|]; try discriminate D.
    destruct (utf8_decode (b0 :: b)); [discriminate D|].
    injection D as <-. auto.
Qed.

(** ** Failures before the pipeline *)

(** X4: piped input that is not valid UTF-8 makes [exec_command] raise
    [UnicodeDecodeError] before anything else happens: the connection is
    as it was, no runspace is created or opened, and nothing is sent. *)
Theorem undecodable_input_fails_early T cmd b c w :
  b <> [] -> utf8_decode b = None ->
  exec_command T cmd (Some b) c w = (Raise UnicodeDecodeError, c, w).
Proof.
  intros Hb Hd. rewrite exec_command_run. unfold decode_input.
  destruct b as [|b0 b]; [contradiction|]. rewrite Hd. reflexivity.
Qed.

Lemma undecodable_input_fails_early_witness :
  [255%N] <> [] /\ utf8_decode [255%N] = None
  /\ exec_command (scripted silent) (lit "Get-Date") (Some [255%N])
       (psrp_local local_defaults) world0
     = (Raise UnicodeDecodeError, psrp_local local_defaults, world0).
Proof.
  assert (Hb : [255%N] <> []) by discriminate.
  split; [exact Hb|]. split; [reflexivity|].
  exact (undecodable_input_fails_early (scripted silent) (lit "Get-Date")
           [255%N] (psrp_local local_defaults) world0 Hb eq_refl).
Defined.

(** X6: on the base class, which has no connection info of its own, the
    accessor raises [NotImplementedError] before any pool is created,
    and so do the operations that need a runspace; nothing is changed. *)
Theorem base_class_cannot_connect T c w :
  HAS_PSRP T = true -> _runspace c = None -> plugin c = PSRPBase ->
  _get_runspace T c w = (Raise NotImplementedError, c, w)
  /\ (forall cmd in_data input_data,
        decode_input in_data = Ok input_data ->
        exec_command T cmd in_data c w = (Raise NotImplementedError, c, w))
  /\ (forall src dst,
        put_file T src dst c w = (Raise NotImplementedError, c, w))
  /\ (forall src dst,
        fetch_file T src dst c w = (Raise NotImplementedError, c, w)).
Proof.
  intros HP Hr Hp.
  assert (G : _get_runspace T c w = (Raise NotImplementedError, c, w)).
  { rewrite (_get_runspace_fresh T c w HP Hr), Hp. reflexivity. }
  repeat split; [exact G| | |].
  - intros cmd in_data input_data Hd.
    rewrite exec_command_run, Hd, G. reflexivity.
  - intros src dst. unfold put_file. rewrite bind_run, G. reflexivity.
  - intros src dst. unfold fetch_file. rewrite bind_run, G. reflexivity.
Qed.

Lemma base_class_cannot_connect_witness :
  let c := Connection_init (lit "base") PSRPBase in
  HAS_PSRP (scripted silent) = true /\ _runspace c = None
  /\ plugin c = PSRPBase
  /\ _get_runspace (scripted silent) c world0
     = (Raise NotImplementedError, c, world0)
  /\ (forall cmd in_data input_data,
        decode_input in_data = Ok input_data ->
        exec_command (scripted silent) cmd in_data c world0
        = (Raise NotImplementedError, c, world0))
  /\ (forall src dst,
        put_file (scripted silent) src dst c world0
        = (Raise NotImplementedError, c, world0))
  /\ (forall src dst,
        fetch_file (scripted silent) src dst c world0
        = (Raise NotImplementedError, c, world0)).
Proof.
  cbv zeta. do 3 (split; [reflexivity|]).
  exact (base_class_cannot_connect (scripted silent)
           (Connection_init (lit "base") PSRPBase) world0
           eq_refl eq_refl eq_refl).
Defined.

(** X7: when [open] raises, the accessor has already stored the pool on
    the connection and has not marked it connected.  From then on the
    accessor returns that pool as it is, without opening it and without
    creating another, and [close] and [reset] do nothing. *)
Theorem failed_open_is_not_retried T c w info e :
  HAS_PSRP T = true -> _runspace c = None -> _connected c = false ->
  connection_info_of T (plugin c) = Ok info ->
  open_result T (with_new_pool info w) (next_handle w) = Some e ->
  let h := next_handle w in
  let c1 := conn_of (_get_runspace T c w) in
  result_of (_get_runspace T c w) = Raise e
  /\ _runspace c1 = Some h /\ _connected c1 = false
  /\ calls (world_of (_get_runspace T c w))
     = calls w ++ [PoolCreated h info; PoolOpen h]
  /\ (forall w2, _get_runspace T c1 w2 = (Ok h, c1, w2))
  /\ (forall w2, close T c1 w2 = (Ok tt, c1, w2)
                 /\ reset T c1 w2 = (Ok tt, c1, w2)).
Proof.
  intros HP Hr Hc Hi Ho. cbv zeta.
  rewrite (_get_runspace_fresh T c w HP Hr), Hi. cbv zeta. rewrite Ho.
  cbn [result_of conn_of world_of fst snd].
  repeat split.
  - exact Hc.
  - cbn. rewrite <- app_assoc. reflexivity.
  - intros w2. apply _get_runspace_held; [exact HP|reflexivity].
  - rewrite close_run. cbn [_connected set_runspace]. rewrite Hc.
    reflexivity.
  - rewrite reset_run. cbn [_connected set_runspace]. rewrite Hc.
    reflexivity.
Qed.

Lemma failed_open_is_not_retried_witness :
  let T := refusing in
  let c := psrp_local local_defaults in
  let info := Process (local_connection_info local_defaults) in
  let e := TransportError (lit "refused") in
  HAS_PSRP T = true /\ _runspace c = None /\ _connected c = false
  /\ connection_info_of T (plugin c) = Ok info
  /\ open_result T (with_new_pool info world0) (next_handle world0) = Some e
  /\ (let h := next_handle world0 in
      let c1 := conn_of (_get_runspace T c world0) in
      result_of (_get_runspace T c world0) = Raise e
      /\ _runspace c1 = Some h /\ _connected c1 = false
      /\ calls (world_of (_get_runspace T c world0))
         = calls world0 ++ [PoolCreated h info; PoolOpen h]
      /\ (forall w2, _get_runspace T c1 w2 = (Ok h, c1, w2))
      /\ (forall w2, close T c1 w2 = (Ok tt, c1, w2)
                     /\ reset T c1 w2 = (Ok tt, c1, w2))).
Proof.
  cbv zeta. do 5 (split; [reflexivity|]).
  exact (failed_open_is_not_retried refusing (psrp_local local_defaults)
           world0 (Process (local_connection_info local_defaults))
           (TransportError (lit "refused"))
           eq_refl eq_refl eq_refl eq_refl eq_refl).
Defined.

(** ** Closing and resetting a connected session *)

(** X8: [close] on a connected session.  If the pool reports [Opened]
    and closing it succeeds, exactly one close is issued, on the held
    pool, and the runspace and the connected flag are cleared.  If the
    pool reports any other state no call is made and both are cleared
    all the same.  If closing raises, the error propagates and the
    connection still holds the pool and is still marked connected.  The
    sink is never touched. *)
Theorem close_connected T c w h :
  HAS_PSRP T = true -> _connected c = true -> _runspace c = Some h ->
  (pool_state w h = Opened -> close_result T w h = None ->
   close T c w
   = (Ok tt, cleared c,
      set_pool_state h Closed (record_call (PoolClose h) w)))
  /\ (is_Opened (pool_state w h) = false ->
      close T c w = (Ok tt, cleared c, w))
  /\ (forall e, pool_state w h = Opened -> close_result T w h = Some e ->
      close T c w = (Raise e, c, record_call (PoolClose h) w))
  /\ _runspace (cleared c) = None /\ _connected (cleared c) = false
  /\ sink (cleared c) = sink c.
Proof.
  intros HP Hc Hr.
  assert (E : close T c w =
    if is_Opened (pool_state w h) then
      match close_result T w h with
      | None =>
        (Ok tt, cleared c,
         set_pool_state h Closed (record_call (PoolClose h) w))
      | Some e => (Raise e, c, record_call (PoolClose h) w)
      end
    else (Ok tt, cleared c, w)).
  { rewrite close_run, Hc. cbn [negb].
    rewrite (_get_runspace_held T c w h HP Hr). reflexivity. }
  rewrite E. repeat split.
  - intros Ho Hk. rewrite Ho, Hk. reflexivity.
  - intros Ho. rewrite Ho. reflexivity.
  - intros e Ho Hk. rewrite Ho, Hk. reflexivity.
Qed.

Lemma close_connected_witness :
  HAS_PSRP (scripted silent) = true /\ _connected opened_local = true
  /\ _runspace opened_local = Some 0
  /\ ((pool_state opened_world 0 = Opened ->
       close_result (scripted silent) opened_world 0 = None ->
       close (scripted silent) opened_local opened_world
       = (Ok tt, cleared opened_local,
          set_pool_state 0 Closed (record_call (PoolClose 0) opened_world)))
      /\ (is_Opened (pool_state opened_world 0) = false ->
          close (scripted silent) opened_local opened_world
          = (Ok tt, cleared opened_local, opened_world))
      /\ (forall e, pool_state opened_world 0 = Opened ->
          close_result (scripted silent) opened_world 0 = Some e ->
          close (scripted silent) opened_local opened_world
          = (Raise e, opened_local, record_call (PoolClose 0) opened_world))
      /\ _runspace (cleared opened_local) = None
      /\ _connected (cleared opened_local) = false
      /\ sink (cleared opened_local) = sink opened_local).
Proof.
  do 3 (split; [reflexivity|]).
  exact (close_connected (scripted silent) opened_local opened_world 0
           eq_refl eq_refl eq_refl).
Defined.

(** X9: whenever [close] returns, the connection is no longer marked
    connected, so closing again, or resetting, does nothing at all. *)
Theorem close_twice T c w :
  result_of (close T c w) = Ok tt ->
  _connected (conn_of (close T c w)) = false
  /\ (forall T' w',
        close T' (conn_of (close T c w)) w'
        = (Ok tt, conn_of (close T c w), w')
        /\ reset T' (conn_of (close T c w)) w'
           = (Ok tt, conn_of (close T c w), w')).
Proof.
  intros H.
  assert (Hc : _connected (conn_of (close T c w)) = false).
  { revert H. rewrite close_run.
    destruct (_connected c) eqn:E; cbn [negb]; [|intros _; exact E].
    destruct (_get_runspace T c w) as [[[h|e] c1] w1]; [|discriminate].
    destruct (is_Opened (pool_state w1 h)); [|reflexivity].
    destruct (close_result T w1 h); [discriminate|reflexivity]. }
  split; [exact Hc|]. intros T' w'.
  rewrite reset_run, close_run, Hc. split; reflexivity.
Qed.

Lemma close_twice_witness :
  result_of (close (scripted silent) opened_local opened_world) = Ok tt
  /\ _connected (conn_of (close (scripted silent) opened_local opened_world))
     = false
  /\ (forall T' w',
        close T' (conn_of (close (scripted silent) opened_local
                             opened_world)) w'
        = (Ok tt, conn_of (close (scripted silent) opened_local
                             opened_world), w')
        /\ reset T' (conn_of (close (scripted silent) opened_local
                                opened_world)) w'
           = (Ok tt, conn_of (close (scripted silent) opened_local
                                opened_world), w')).
Proof.
  split; [reflexivity|].
  exact (close_twice (scripted silent) opened_local opened_world eq_refl).
Defined.

(** X10: [reset] on a connected session whose pool is open, when the
    close and the following open succeed: the held pool is closed, a new
    pool is created from the same connection info and opened, in that
    order and with no other call; the connection then holds the new pool
    and is marked connected, and its sink is as it was. *)
Theorem reset_reopens T c w h info :
  HAS_PSRP T = true -> _connected c = true -> _runspace c = Some h ->
  pool_state w h = Opened -> close_result T w h = None ->
  connection_info_of T (plugin c) = Ok info ->
  open_result T
    (with_new_pool info
       (set_pool_state h Closed (record_call (PoolClose h) w)))
    (next_handle w) = None ->
  let h' := next_handle w in
  result_of (reset T c w) = Ok tt
  /\ _runspace (conn_of (reset T c w)) = Some h'
  /\ _connected (conn_of (reset T c w)) = true
  /\ sink (conn_of (reset T c w)) = sink c
  /\ calls (world_of (reset T c w))
     = calls w ++ [PoolClose h; PoolCreated h' info; PoolOpen h']
  /\ pool_state (world_of (reset T c w)) h' = Opened
  /\ (h <> h' -> pool_state (world_of (reset T c w)) h = Closed).
Proof.
  intros HP Hc Hr Hs Hk Hi Ho. cbv zeta.
  rewrite reset_run, close_run, Hc. cbn [negb].
  rewrite (_get_runspace_held T c w h HP Hr), Hs, Hk. cbn [is_Opened].
  rewrite (_get_runspace_fresh T (cleared c) _ HP eq_refl).
  cbn [plugin cleared set_connected set_runspace]. rewrite Hi. cbv zeta.
  cbn [next_handle set_pool_state record_call]. rewrite Ho.
  cbn [result_of conn_of world_of fst snd]. repeat split.
  - cbn. rewrite <- !app_assoc. reflexivity.
  - cbn. rewrite Nat.eqb_refl. reflexivity.
  - intros Hn. cbn. apply Nat.eqb_neq in Hn. rewrite Hn, Nat.eqb_refl.
    reflexivity.
Qed.

Lemma reset_reopens_witness :
  let T := scripted silent in
  let info := Process (local_connection_info local_defaults) in
  HAS_PSRP T = true /\ _connected opened_local = true
  /\ _runspace opened_local = Some 0
  /\ pool_state opened_world 0 = Opened
  /\ close_result T opened_world 0 = None
  /\ connection_info_of T (plugin opened_local) = Ok info
  /\ open_result T
       (with_new_pool info
          (set_pool_state 0 Closed (record_call (PoolClose 0) opened_world)))
       (next_handle opened_world) = None
  /\ (let h' := next_handle opened_world in
      result_of (reset T opened_local opened_world) = Ok tt
      /\ _runspace (conn_of (reset T opened_local opened_world)) = Some h'
      /\ _connected (conn_of (reset T opened_local opened_world)) = true
      /\ sink (conn_of (reset T opened_local opened_world))
         = sink opened_local
      /\ calls (world_of (reset T opened_local opened_world))
         = calls opened_world
           ++ [PoolClose 0; PoolCreated h' info; PoolOpen h']
      /\ pool_state (world_of (reset T opened_local opened_world)) h'
         = Opened
      /\ (0 <> h' ->
          pool_state (world_of (reset T opened_local opened_world)) 0
          = Closed)).
Proof.
  cbv zeta. do 7 (split; [reflexivity|]).
  exact (reset_reopens (scripted silent) opened_local opened_world 0
           (Process (local_connection_info local_defaults))
           eq_refl eq_refl eq_refl eq_refl eq_refl eq_refl eq_refl).
Defined.

(** ** What every operation keeps *)

Lemma same_session_consistent a b :
  same_session a b -> session_consistent b -> session_consistent a.
Proof.
  intros (Hr & Hc & _) H. unfold session_consistent in *.
  rewrite Hr, Hc. exact H.
Qed.

Lemma _get_runspace_consistent T c w :
  session_consistent c -> session_consistent (conn_of (_get_runspace T c w)).
Proof.
  intros H. destruct (HAS_PSRP T) eqn:HP.
  - destruct (_runspace c) as [h|] eqn:Hr.
    + rewrite (_get_runspace_held T c w h HP Hr). exact H.
    + rewrite (_get_runspace_fresh T c w HP Hr).
      destruct (connection_info_of T (plugin c)); [|exact H].
      cbv zeta. destruct (open_result T _ _);
        unfold session_consistent; cbn; discriminate.
  - rewrite (_get_runspace_missing T c w HP). exact H.
Qed.

Lemma close_consistent T c w :
  session_consistent c -> session_consistent (conn_of (close T c w)).
Proof.
  intros H. rewrite close_run.
  destruct (_connected c); cbn [negb]; [|exact H].
  pose proof (_get_runspace_consistent T c w H) as G.
  destruct (_get_runspace T c w) as [[[h|e] c1] w1];
    cbn [conn_of fst snd] in *; [|exact G].
  destruct (is_Opened (pool_state w1 h)).
  - destruct (close_result T w1 h); [exact G|].
    unfold session_consistent. cbn. discriminate.
  - unfold session_consistent. cbn. discriminate.
Qed.

(** X11: a connection marked connected always holds a runspace.  This
    is so for a new connection, and every operation keeps it so, whether
    it returns or raises: the accessor, [exec_command], [put_file],
    [fetch_file], [close] and [reset]. *)
Theorem session_consistent_kept T c w :
  session_consistent c ->
  session_consistent (conn_of (_get_runspace T c w))
  /\ (forall cmd in_data,
        session_consistent (conn_of (exec_command T cmd in_data c w)))
  /\ (forall src dst, session_consistent (conn_of (put_file T src dst c w)))
  /\ (forall src dst,
        session_consistent (conn_of (fetch_file T src dst c w)))
  /\ session_consistent (conn_of (close T c w))
  /\ session_consistent (conn_of (reset T c w))
  /\ (forall name p, session_consistent (Connection_init name p)).
Proof.
  intros H. pose proof (_get_runspace_consistent T c w H) as G.
  split; [exact G|]. split; [|split; [|split; [|split; [|split]]]].
  - intros cmd in_data.
    destruct (exec_command_session T cmd in_data c w) as [[_ E]|S].
    + rewrite E. exact H.
    + exact (same_session_consistent _ _ S G).
  - intros src dst. unfold put_file. rewrite bind_run.
    destruct (_get_runspace T c w) as [[[h|e] c1] w1]; [|exact G].
    rewrite transfer_run. exact G.
  - intros src dst. unfold fetch_file. rewrite bind_run.
    destruct (_get_runspace T c w) as [[[h|e] c1] w1]; [|exact G].
    rewrite transfer_run. exact G.
  - apply close_consistent, H.
  - rewrite reset_run. destruct (_connected c); cbn [negb]; [|exact H].
    pose proof (close_consistent T c w H) as K.
    destruct (close T c w) as [[[u|e] c1] w1]; cbn [conn_of fst snd] in *;
      [|exact K].
    pose proof (_get_runspace_consistent T c1 w1 K) as G1.
    destruct (_get_runspace T c1 w1) as [[[h|e] c2] w2]; exact G1.
  - intros name p. unfold session_consistent. cbn. discriminate.
Qed.

Lemma session_consistent_kept_witness :
  let T := scripted silent in
  let c := opened_local in
  let w := opened_world in
  session_consistent c
  /\ session_consistent (conn_of (_get_runspace T c w))
  /\ (forall cmd in_data,
        session_consistent (conn_of (exec_command T cmd in_data c w)))
  /\ (forall src dst, session_consistent (conn_of (put_file T src dst c w)))
  /\ (forall src dst,
        session_consistent (conn_of (fetch_file T src dst c w)))
  /\ session_consistent (conn_of (close T c w))
  /\ session_consistent (conn_of (reset T c w))
  /\ (forall name p, session_consistent (Connection_init name p)).
Proof.
  cbv zeta.
  assert (H : session_consistent opened_local).
  { intros _. discriminate. }
  split; [exact H|].
  exact (session_consistent_kept (scripted silent) opened_local opened_world
           H).
Defined.

(** ** Operations on a session that is already open *)

Lemma exec_command_held T cmd in_data c w h :
  HAS_PSRP T = true -> _runspace c = Some h ->
  same_session (conn_of (exec_command T cmd in_data c w)) c
  /\ next_handle (world_of (exec_command T cmd in_data c w)) = next_handle w
  /\ pool_state (world_of (exec_command T cmd in_data c w)) = pool_state w
  /\ (calls (world_of (exec_command T cmd in_data c w)) = calls w
      \/ exists script input_data,
           script_for cmd = Ok script
           /\ decode_input in_data = Ok input_data
           /\ calls (world_of (exec_command T cmd in_data c w))
              = calls w ++ [PipelineInvoke h [script] input_data]).
Proof.
  intros HP Hr. rewrite exec_command_run.
  rewrite (_get_runspace_held T c w h HP Hr).
  destruct (decode_input in_data) as [input_data|e];
    [|cbn; auto using same_session_refl].
  destruct (script_for cmd) as [script|e];
    [|cbn; auto using same_session_refl].
  assert (R :
    same_session (conn_of (run_pipeline T h script input_data c w)) c
    /\ next_handle (world_of (run_pipeline T h script input_data c w))
       = next_handle w
    /\ pool_state (world_of (run_pipeline T h script input_data c w))
       = pool_state w
    /\ (calls (world_of (run_pipeline T h script input_data c w)) = calls w
        \/ exists script0 input0,
             Ok script = Ok script0 /\ Ok input_data = Ok input0
             /\ calls (world_of (run_pipeline T h script input_data c w))
                = calls w ++ [PipelineInvoke h [script0] input0])).
  { rewrite world_of_run_pipeline.
    split; [apply run_pipeline_session|]. repeat split.
    right. exists script, input_data. auto. }
  destruct (search cmd); [destruct (shebang_text input_data)|]; auto.
  cbn. auto using same_session_refl.
Qed.

(** X12: on a connection that holds a runspace, [exec_command] changes
    nothing of the session: the runspace, the connected flag, the
    transport name and the options stay, no pool is created, opened or
    closed, and the call log grows by nothing or by one pipeline
    invocation, made on the held runspace with one script and with the
    decoded input. *)
Theorem exec_command_on_open_session T cmd in_data c w h :
  HAS_PSRP T = true -> _runspace c = Some h ->
  same_session (conn_of (exec_command T cmd in_data c w)) c
  /\ next_handle (world_of (exec_command T cmd in_data c w)) = next_handle w
  /\ pool_state (world_of (exec_command T cmd in_data c w)) = pool_state w
  /\ (calls (world_of (exec_command T cmd in_data c w)) = calls w
      \/ exists script input_data,
           script_for cmd = Ok script
           /\ decode_input in_data = Ok input_data
           /\ calls (world_of (exec_command T cmd in_data c w))
              = calls w ++ [PipelineInvoke h [script] input_data]).
Proof. apply exec_command_held. Qed.

Lemma exec_command_on_open_session_witness :
  let T := scripted interleaved in
  let X := exec_command T encoded_dir (Some shebang_payload)
             opened_local opened_world in
  HAS_PSRP T = true /\ _runspace opened_local = Some 0
  /\ same_session (conn_of X) opened_local
  /\ next_handle (world_of X) = next_handle opened_world
  /\ pool_state (world_of X) = pool_state opened_world
  /\ (calls (world_of X) = calls opened_world
      \/ exists script input_data,
           script_for encoded_dir = Ok script
           /\ decode_input (Some shebang_payload) = Ok input_data
           /\ calls (world_of X)
              = calls opened_world ++ [PipelineInvoke 0 [script] input_data]).
Proof.
  cbv zeta. do 2 (split; [reflexivity|]).
  exact (exec_command_on_open_session (scripted interleaved) encoded_dir
           (Some shebang_payload) opened_local opened_world 0
           eq_refl eq_refl).
Defined.

(** X13: on a connection that holds a runspace, [put_file] and
    [fetch_file] make one call each, the copy or the fetch on the held
    runspace with the two paths as given; the connection is untouched,
    and an error of the transfer is raised as it comes. *)
Theorem file_transfer_on_open_session T c w h src dst :
  HAS_PSRP T = true -> _runspace c = Some h ->
  put_file T src dst c w
  = (match transfer_result T w (CopyFile h src dst) with
     | None => Ok tt
     | Some e => Raise e
     end, c, record_call (CopyFile h src dst) w)
  /\ fetch_file T src dst c w
     = (match transfer_result T w (FetchFile h src dst) with
        | None => Ok tt
        | Some e => Raise e
        end, c, record_call (FetchFile h src dst) w).
Proof.
  intros HP Hr. unfold put_file, fetch_file.
  rewrite !bind_run, (_get_runspace_held T c w h HP Hr), !transfer_run.
  split; reflexivity.
Qed.

Lemma file_transfer_on_open_session_witness :
  let T := scripted silent in
  HAS_PSRP T = true /\ _runspace opened_local = Some 0
  /\ put_file T (lit "a.txt") (lit "C:\a.txt") opened_local opened_world
     = (match transfer_result T opened_world
                (CopyFile 0 (lit "a.txt") (lit "C:\a.txt")) with
        | None => Ok tt
        | Some e => Raise e
        end, opened_local,
        record_call (CopyFile 0 (lit "a.txt") (lit "C:\a.txt")) opened_world)
  /\ fetch_file T (lit "a.txt") (lit "C:\a.txt") opened_local opened_world
     = (match transfer_result T opened_world
                (FetchFile 0 (lit "a.txt") (lit "C:\a.txt")) with
        | None => Ok tt
        | Some e => Raise e
        end, opened_local,
        record_call (FetchFile 0 (lit "a.txt") (lit "C:\a.txt")) opened_world).
Proof.
  cbv zeta. do 2 (split; [reflexivity|]).
  exact (file_transfer_on_open_session (scripted silent) opened_local
           opened_world 0 (lit "a.txt") (lit "C:\a.txt") eq_refl eq_refl).
Defined.

Lemma _get_runspace_ok_held T c w h :
  result_of (_get_runspace T c w) = Ok h ->
  _runspace (conn_of (_get_runspace T c w)) = Some h.
Proof.
  intros H. pose proof (_get_runspace_needs_psrp T c w h H) as HP.
  destruct (_runspace c) as [h0|] eqn:Hr.
  - rewrite (_get_runspace_held T c w h0 HP Hr) in *.
    cbn in *. congruence.
  - revert H. rewrite (_get_runspace_fresh T c w HP Hr).
    destruct (connection_info_of T (plugin c)); [|discriminate].
    cbv zeta. destruct (open_result T _ _); [discriminate|].
    cbn. congruence.
Qed.

Lemma exec_command_ok_runspace T cmd in_data c w v :
  result_of (exec_command T cmd in_data c w) = Ok v ->
  exists h, result_of (_get_runspace T c w) = Ok h.
Proof.
  rewrite exec_command_run.
  destruct (decode_input in_data); [|discriminate].
  destruct (_get_runspace T c w) as [[[h|e] c1] w1]; [|discriminate].
  intros _. exists h. reflexivity.
Qed.

(** X14: the runspace is opened at most once over a series of commands:
    after an [exec_command] that returned, a further [exec_command] on
    the same connection, whatever its command and input, creates, opens
    and closes no pool and leaves the connection holding the same
    runspace. *)
Theorem next_command_reuses_runspace T cmd in_data c w rc out err :
  result_of (exec_command T cmd in_data c w) = Ok (rc, out, err) ->
  forall cmd2 in_data2,
    let c1 := conn_of (exec_command T cmd in_data c w) in
    let w1 := world_of (exec_command T cmd in_data c w) in
    _runspace (conn_of (exec_command T cmd2 in_data2 c1 w1)) = _runspace c1
    /\ _runspace c1 <> None
    /\ filter is_pool_call (calls (world_of (exec_command T cmd2 in_data2
                                               c1 w1)))
       = filter is_pool_call (calls w1).
Proof.
  intros H cmd2 in_data2. cbv zeta.
  assert (Hh : exists h,
    HAS_PSRP T = true
    /\ _runspace (conn_of (exec_command T cmd in_data c w)) = Some h).
  { destruct (exec_command_ok_runspace T cmd in_data c w _ H) as [h Gh].
    exists h. split; [exact (_get_runspace_needs_psrp T c w h Gh)|].
    destruct (exec_command_session T cmd in_data c w) as [[_ E]|S].
    - rewrite E in H. discriminate H.
    - destruct S as (Sr & _). rewrite Sr.
      exact (_get_runspace_ok_held T c w h Gh). }
  destruct Hh as (h & HP & Hr).
  destruct (exec_command_held T cmd2 in_data2 _
              (world_of (exec_command T cmd in_data c w)) h HP Hr)
    as ((Sr & _) & _ & _ & Hc).
  split; [exact Sr|]. split; [rewrite Hr; discriminate|].
  destruct Hc as [-> | (script & input & _ & _ & ->)]; [reflexivity|].
  rewrite filter_app. cbn. rewrite app_nil_r. reflexivity.
Qed.

Lemma next_command_reuses_runspace_witness :
  let T := scripted silent in
  let X := exec_command T (lit "Get-Date") None
             (psrp_local local_defaults) world0 in
  result_of X = Ok (0%Z, [], [])
  /\ forall cmd2 in_data2,
       let c1 := conn_of X in
       let w1 := world_of X in
       _runspace (conn_of (exec_command T cmd2 in_data2 c1 w1))
       = _runspace c1
       /\ _runspace c1 <> None
       /\ filter is_pool_call
            (calls (world_of (exec_command T cmd2 in_data2 c1 w1)))
          = filter is_pool_call (calls w1).
Proof.
  cbv zeta. split; [reflexivity|].
  exact (next_command_reuses_runspace (scripted silent) (lit "Get-Date")
           None (psrp_local local_defaults) world0 0%Z [] [] eq_refl).
Defined.

(** ** Building the script *)

(** X15: building the script can fail in one way only.  A command the
    pattern does not match always gives a script; for an encoded command
    the base64 step never fails, so the script is built unless the
    decoded bytes are not UTF-16LE text, which raises
    [UnicodeDecodeError]. *)
Theorem script_for_failure cmd :
  (exists script, script_for cmd = Ok script)
  \/ (is_encoded_command cmd = true
      /\ script_for cmd = Raise UnicodeDecodeError).
Proof.
  unfold script_for, is_encoded_command.
  destruct (search cmd) as [payload|] eqn:E; [|eauto].
  apply search_sound in E as (prefix & tail & _ & Hp & _).
  destruct (b64decode_total payload Hp) as [raw Hraw].
  unfold decode_script. rewrite Hraw.
  destruct (utf16le_decode raw); eauto.
Qed.

(** X16: one newline after the payload of an encoded command changes
    nothing: the script is the one built without it. *)
Theorem final_newline_ignored prefix payload :
  base64_text payload = true ->
  script_for (prefix ++ lit "-EncodedCommand " ++ payload ++ [NL])
  = script_for (prefix ++ lit "-EncodedCommand " ++ payload).
Proof.
  intros Hp. change (lit "-EncodedCommand ") with KEYWORD.
  rewrite (script_for_encoded prefix payload Hp).
  unfold script_for.
  rewrite (search_complete prefix payload [NL] Hp eq_refl). reflexivity.
Qed.

Lemma final_newline_ignored_witness :
  base64_text (lit "ZABpAHIA") = true
  /\ script_for (lit "powershell " ++ lit "-EncodedCommand "
                 ++ lit "ZABpAHIA" ++ [NL])
     = script_for (lit "powershell " ++ lit "-EncodedCommand "
                   ++ lit "ZABpAHIA").
Proof.
  split; [reflexivity|].
  exact (final_newline_ignored (lit "powershell ") (lit "ZABpAHIA") eq_refl).
Defined.

(** X17: an encoded command ends in a base64 character, a padding
    character, the space after the keyword, or a newline.  A command
    that ends in anything else, a quote or a semicolon for one, is run
    as text with the exit statement appended. *)
Theorem encoded_command_last_char cmd x :
  is_encoded_command (cmd ++ [x]) = true ->
  payload_char x = true \/ x = 32%N \/ x = NL.
Proof.
  unfold is_encoded_command.
  destruct (search (cmd ++ [x])) as [payload|] eqn:E; [|discriminate].
  intros _. apply search_sound in E as (prefix & tail & Ht & Hp & E).
  apply (f_equal (@rev N)) in E.
  rewrite rev_unit, !rev_app_distr in E.
  apply at_dollar_cases in Ht as [-> | ->].
  - cbn [rev app] in E. destruct (rev payload) as [|y r] eqn:R.
    + cbn in E. injection E as -> _. auto.
    + cbn in E. injection E as -> _. left.
      apply base64_text_chars in Hp. rewrite Forall_forall in Hp.
      apply Hp, in_rev. rewrite R. left. reflexivity.
  - cbn in E. injection E as -> _. auto.
Qed.

Lemma encoded_command_last_char_witness :
  is_encoded_command (lit "powershell -EncodedCommand ZABpAHI" ++ [65%N])
  = true
  /\ (payload_char 65 = true \/ 65%N = 32%N \/ 65%N = NL).
Proof.
  split; [reflexivity|].
  exact (encoded_command_last_char
           (lit "powershell -EncodedCommand ZABpAHI") 65%N eq_refl).
Defined.

(** ** The interpreter named in the error *)

Lemma first_line_stops path : forall rest,
  Forall (fun ch => is_linebreak ch = false) path ->
  (rest = [] \/ exists ch r, rest = ch :: r /\ is_linebreak ch = true) ->
  first_line (path ++ rest) = path.
Proof.
  induction path as [|p path IH]; intros rest Hp Hr.
  - cbn [app]. destruct Hr as [-> | (ch & r & -> & Hb)]; [reflexivity|].
    cbn. rewrite Hb. reflexivity.
  - inversion Hp as [|? ? Hp0 Hp1]; subst.
    cbn [app first_line]. rewrite Hp0, (IH rest Hp1 Hr). reflexivity.
Qed.

(** X18: for input that begins with [#!], the interpreter named in the
    error is the text between the [#!] and the first line boundary, or
    the end of the input when there is none; a carriage return counts as
    a boundary, so it is not part of the name. *)
Theorem interpreter_is_rest_of_first_line path rest :
  Forall (fun ch => is_linebreak ch = false) path ->
  (rest = [] \/ exists ch r, rest = ch :: r /\ is_linebreak ch = true) ->
  shebang_text (Some (lit "#!" ++ path ++ rest))
  = Some (lit "#!" ++ path ++ rest)
  /\ interpreter_of (lit "#!" ++ path ++ rest) = path.
Proof.
  intros Hp Hr. split; [reflexivity|].
  unfold interpreter_of.
  change (lit "#!" ++ path ++ rest) with (35%N :: 33%N :: path ++ rest).
  change (35%N :: 33%N :: path ++ rest)
    with ((35%N :: 33%N :: path) ++ rest).
  rewrite first_line_stops; [reflexivity| |exact Hr].
  repeat constructor; assumption.
Qed.

Lemma interpreter_is_rest_of_first_line_witness :
  let path := lit "/usr/bin/python" in
  let rest := [13%N; 10%N] ++ lit "print(1)" in
  Forall (fun ch => is_linebreak ch = false) path
  /\ (rest = [] \/ exists ch r, rest = ch :: r /\ is_linebreak ch = true)
  /\ shebang_text (Some (lit "#!" ++ path ++ rest))
     = Some (lit "#!" ++ path ++ rest)
  /\ interpreter_of (lit "#!" ++ path ++ rest) = path.
Proof.
  cbv zeta.
  assert (Hp : Forall (fun ch => is_linebreak ch = false)
                 (lit "/usr/bin/python")).
  { repeat constructor. }
  assert (Hr : [13%N; 10%N] ++ lit "print(1)" = []
               \/ exists ch r, [13%N; 10%N] ++ lit "print(1)" = ch :: r
                               /\ is_linebreak ch = true).
  { right. exists 13%N, (10%N :: lit "print(1)"). split; reflexivity. }
  split; [exact Hp|]. split; [exact Hr|].
  exact (interpreter_is_rest_of_first_line (lit "/usr/bin/python")
           ([13%N; 10%N] ++ lit "print(1)") Hp Hr).
Defined.

(** ** Text that cannot be encoded *)

(** X19: when the pipeline ran but the collected output or error text
    cannot be encoded as UTF-8, as with a lone surrogate in an output
    object, [exec_command] raises [UnicodeEncodeError]; the sink has been
    reset by then, and the single pipeline invocation has been made. *)
Theorem unencodable_text_raises_after_reset
    T cmd in_data c w input_data h script r :
  decode_input in_data = Ok input_data ->
  result_of (_get_runspace T c w) = Ok h ->
  script_for cmd = Ok script ->
  (is_encoded_command cmd = true -> shebang_text input_data = None) ->
  invoke_result T (world_of (_get_runspace T c w)) h [script] input_data = r ->
  failure r = None ->
  utf8_encode
    (join [NL] (append_nonempty (outputs_of (events r))
                  (stdout (snd (deliver (events r) (sink c)))))) = None
  \/ utf8_encode
       (join [NL] (append_nonempty (errors_of (events r))
                     (stderr (snd (deliver (events r) (sink c)))))) = None ->
  result_of (exec_command T cmd in_data c w) = Raise UnicodeEncodeError
  /\ sink (conn_of (exec_command T cmd in_data c w))
     = (PSHost_init, PSHostUI_init)
  /\ calls (world_of (exec_command T cmd in_data c w))
     = calls (world_of (_get_runspace T c w))
       ++ [PipelineInvoke h [script] input_data].
Proof.
  intros Hi Hg Hs Hb Hr Hf He.
  pose proof (_get_runspace_frame T c w) as F. cbv zeta in F.
  destruct F as (Fs & _).
  rewrite exec_command_run, Hi.
  destruct (_get_runspace T c w) as [[[h'|e] c1] w1]; [|discriminate].
  cbn [result_of conn_of world_of fst snd] in *.
  injection Hg as ->. rewrite Hs.
  assert (R :
    result_of (run_pipeline T h script input_data c1 w1)
    = Raise UnicodeEncodeError
    /\ sink (conn_of (run_pipeline T h script input_data c1 w1))
       = (PSHost_init, PSHostUI_init)
    /\ calls (world_of (run_pipeline T h script input_data c1 w1))
       = calls w1 ++ [PipelineInvoke h [script] input_data]).
  { rewrite world_of_run_pipeline. split; [|split; [|reflexivity]];
      unfold run_pipeline; cbv zeta; rewrite Hr, Hf, Fs;
      destruct He as [-> | ->];
      try destruct (utf8_encode
                      (join [NL] (append_nonempty (outputs_of (events r)) _)));
      reflexivity. }
  unfold is_encoded_command in Hb.
  destruct (search cmd); [rewrite (Hb eq_refl)|]; exact R.
Qed.

Lemma unencodable_text_raises_after_reset_witness :
  let T := scripted surrogate_output in
  let c := psrp_local local_defaults in
  let script := lit "Get-Item x" ++ [NL] ++ lit "exit $LASTEXITCODE" in
  decode_input None = Ok None
  /\ result_of (_get_runspace T c world0) = Ok 0
  /\ script_for (lit "Get-Item x") = Ok script
  /\ (is_encoded_command (lit "Get-Item x") = true ->
      shebang_text None = None)
  /\ invoke_result T (world_of (_get_runspace T c world0)) 0 [script] None
     = surrogate_output
  /\ failure surrogate_output = None
  /\ (utf8_encode
        (join [NL]
           (append_nonempty (outputs_of (events surrogate_output))
              (stdout (snd (deliver (events surrogate_output) (sink c))))))
      = None
      \/ utf8_encode
           (join [NL]
              (append_nonempty (errors_of (events surrogate_output))
                 (stderr (snd (deliver (events surrogate_output)
                                 (sink c))))))
         = None)
  /\ result_of (exec_command T (lit "Get-Item x") None c world0)
     = Raise UnicodeEncodeError
  /\ sink (conn_of (exec_command T (lit "Get-Item x") None c world0))
     = (PSHost_init, PSHostUI_init)
  /\ calls (world_of (exec_command T (lit "Get-Item x") None c world0))
     = calls (world_of (_get_runspace T c world0))
       ++ [PipelineInvoke 0 [script] None].
Proof.
  cbv zeta.
  assert (Hb : is_encoded_command (lit "Get-Item x") = true ->
               shebang_text None = None) by reflexivity.
  assert (He :
    utf8_encode
      (join [NL]
         (append_nonempty (outputs_of (events surrogate_output))
            (stdout (snd (deliver (events surrogate_output)
                            (sink (psrp_local local_defaults)))))))
    = None
    \/ utf8_encode
         (join [NL]
            (append_nonempty (errors_of (events surrogate_output))
               (stderr (snd (deliver (events surrogate_output)
                               (sink (psrp_local local_defaults)))))))
       = None) by (left; reflexivity).
  do 3 (split; [reflexivity|]). split; [exact Hb|].
  do 2 (split; [reflexivity|]). split; [exact He|].
  exact (unencodable_text_raises_after_reset (scripted surrogate_output)
           (lit "Get-Item x") None (psrp_local local_defaults) world0
           None 0
           (lit "Get-Item x" ++ [NL] ++ lit "exit $LASTEXITCODE")
           surrogate_output
           eq_refl eq_refl eq_refl Hb eq_refl eq_refl He).
Defined.

(** ** UTF-8 in and out *)

Section Utf8.

Local Open Scope N_scope.

Local Ltac Zify.zify_post_hook ::= Z.to_euclidean_division_equations.

Lemma ltb_false a b : b <= a -> (a <? b) = false.
Proof. intros H. apply N.ltb_ge. exact H. Qed.

Lemma between_true lo hi x : lo <= x -> x <= hi -> between lo hi x = true.
Proof.
  intros H1 H2. unfold between.
  rewrite (proj2 (N.leb_le lo x) H1), (proj2 (N.leb_le x hi) H2). reflexivity.
Qed.

Lemma between_false_low lo hi x : x < lo -> between lo hi x = false.
Proof.
  intros H. unfold between.
  rewrite (proj2 (N.leb_gt lo x) H). reflexivity.
Qed.

Lemma between_false_high lo hi x : hi < x -> between lo hi x = false.
Proof.
  intros H. unfold between.
  rewrite (proj2 (N.leb_gt x hi) H). apply andb_false_r.
Qed.

Lemma eqb_false a b : a <> b -> (a =? b) = false.
Proof. apply N.eqb_neq. Qed.

Lemma utf8_decode_cons b0 r0 :
  utf8_decode (b0 :: r0) =
  if b0 <? 128 then option_map (cons b0) (utf8_decode r0)
  else if between 194 223 b0 then
    match r0 with
    | b1 :: r1 =>
      if is_cont b1
      then option_map (cons ((b0 - 192) * 64 + (b1 - 128))) (utf8_decode r1)
      else None
    | _ => None
    end
  else if between 224 239 b0 then
    match r0 with
    | b1 :: b2 :: r2 =>
      if between (if b0 =? 224 then 160 else 128)
                 (if b0 =? 237 then 159 else 191) b1 && is_cont b2
      then option_map
             (cons ((b0 - 224) * 4096 + (b1 - 128) * 64 + (b2 - 128)))
             (utf8_decode r2)
      else None
    | _ => None
    end
  else if between 240 244 b0 then
    match r0 with
    | b1 :: b2 :: b3 :: r3 =>
      if between (if b0 =? 240 then 144 else 128)
                 (if b0 =? 244 then 143 else 191) b1
         && is_cont b2 && is_cont b3
      then option_map
             (cons ((b0 - 240) * 262144 + (b1 - 128) * 4096
                    + (b2 - 128) * 64 + (b3 - 128)))
             (utf8_decode r3)
      else None
    | _ => None
    end
  else None.
Proof. reflexivity. Qed.

Lemma some_eq {A} (x y : A) : Some x = Some y -> x = y.
Proof. congruence. Qed.

Ltac step_decode :=
  lazymatch goal with
  | |- context [(?x :: ?l) ++ ?r] =>
    change ((x :: l) ++ r) with (x :: (l ++ r))
  end.

(** Decoding the bytes of one character gives the character back. *)
Lemma utf8_char_decode c bs rest :
  utf8_char c = Some bs ->
  utf8_decode (bs ++ rest) = option_map (cons c) (utf8_decode rest).
Proof.
  unfold utf8_char.
  destruct (N.ltb_spec c 128) as [H1|H1].
  { intros E. apply some_eq in E. subst bs. repeat step_decode. change ([] ++ rest) with rest.
    rewrite utf8_decode_cons.
    rewrite (proj2 (N.ltb_lt c 128) H1). reflexivity. }
  destruct (N.ltb_spec c 2048) as [H2|H2].
  { intros E. apply some_eq in E. subst bs. repeat step_decode. change ([] ++ rest) with rest.
    rewrite utf8_decode_cons.
    rewrite (ltb_false (192 + c / 64) 128) by lia.
    rewrite (between_true 194 223 (192 + c / 64)) by lia.
    unfold is_cont. rewrite (between_true 128 191 (128 + c mod 64)) by lia.
    replace ((192 + c / 64 - 192) * 64 + (128 + c mod 64 - 128)) with c
      by lia.
    reflexivity. }
  destruct (between 55296 57343 c) eqn:Hs; [discriminate|].
  assert (Hns : c < 55296 \/ 57343 < c).
  { unfold between in Hs. apply andb_false_iff in Hs as [Hs|Hs];
      apply N.leb_gt in Hs; lia. }
  destruct (N.ltb_spec c 65536) as [H3|H3].
  { intros E. apply some_eq in E. subst bs. repeat step_decode. change ([] ++ rest) with rest.
    rewrite utf8_decode_cons.
    rewrite (ltb_false (224 + c / 4096) 128) by lia.
    rewrite (between_false_high 194 223 (224 + c / 4096)) by lia.
    rewrite (between_true 224 239 (224 + c / 4096)) by lia.
    unfold is_cont.
    rewrite (between_true 128 191 (128 + c mod 64)) by lia.
    assert (Hb1 :
      between (if 224 + c / 4096 =? 224 then 160 else 128)
              (if 224 + c / 4096 =? 237 then 159 else 191)
              (128 + (c / 64) mod 64) = true).
    { destruct (N.eqb_spec (224 + c / 4096) 224) as [E|E];
        destruct (N.eqb_spec (224 + c / 4096) 237) as [E'|E'];
        apply between_true; lia. }
    rewrite Hb1. cbn [andb].
    replace ((224 + c / 4096 - 224) * 4096
             + (128 + (c / 64) mod 64 - 128) * 64
             + (128 + c mod 64 - 128)) with c by lia.
    reflexivity. }
  destruct (N.ltb_spec c 1114112) as [H4|H4]; [|discriminate].
  intros E. apply some_eq in E. subst bs. repeat step_decode. change ([] ++ rest) with rest.
    rewrite utf8_decode_cons.
  rewrite (ltb_false (240 + c / 262144) 128) by lia.
  rewrite (between_false_high 194 223 (240 + c / 262144)) by lia.
  rewrite (between_false_high 224 239 (240 + c / 262144)) by lia.
  rewrite (between_true 240 244 (240 + c / 262144)) by lia.
  unfold is_cont.
  rewrite (between_true 128 191 (128 + c mod 64)) by lia.
  rewrite (between_true 128 191 (128 + (c / 64) mod 64)) by lia.
  assert (Hb1 :
    between (if 240 + c / 262144 =? 240 then 144 else 128)
            (if 240 + c / 262144 =? 244 then 143 else 191)
            (128 + (c / 4096) mod 64) = true).
  { destruct (N.eqb_spec (240 + c / 262144) 240) as [E|E];
      destruct (N.eqb_spec (240 + c / 262144) 244) as [E'|E'];
      apply between_true; lia. }
  rewrite Hb1. cbn [andb].
  replace ((240 + c / 262144 - 240) * 262144
           + (128 + (c / 4096) mod 64 - 128) * 4096
           + (128 + (c / 64) mod 64 - 128) * 64
           + (128 + c mod 64 - 128)) with c by lia.
  reflexivity.
Qed.

Lemma utf8_round_trip text : forall b,
  utf8_encode text = Some b -> utf8_decode b = Some text.
Proof.
  induction text as [|c text IH]; intros b.
  - intros [= <-]. reflexivity.
  - cbn [utf8_encode].
    destruct (utf8_char c) as [bs|] eqn:Hc; [|discriminate].
    destruct (utf8_encode text) as [bt|]; [|discriminate].
    intros [= <-]. rewrite (utf8_char_decode c bs bt Hc), (IH bt eq_refl).
    reflexivity.
Qed.

Lemma utf8_encode_nonempty text b :
  utf8_encode text = Some b -> text <> [] -> b <> [].
Proof.
  destruct text as [|c text]; [contradiction|]. cbn [utf8_encode].
  unfold utf8_char.
  destruct (c <? 128); [|destruct (c <? 2048);
    [|destruct (between 55296 57343 c); [discriminate|];
      destruct (c <? 65536); [|destruct (c <? 1114112); [|discriminate]]]];
    destruct (utf8_encode text); try discriminate;
    intros [= <-] _; discriminate.
Qed.

End Utf8.

(** X20: piped input that is the UTF-8 encoding of a text reaches the
    pipeline as that text: for every non-empty text that can be encoded,
    decoding the input gives the text back, every code point of it. *)
Theorem piped_text_round_trip text b :
  utf8_encode text = Some b -> text <> [] ->
  decode_input (Some b) = Ok (Some text).
Proof.
  intros He Hn. unfold decode_input.
  pose proof (utf8_encode_nonempty text b He Hn) as Hb.
  destruct b as [|b0 b]; [contradiction|].
  rewrite (utf8_round_trip text (b0 :: b) He). reflexivity.
Qed.

Lemma piped_text_round_trip_witness :
  utf8_encode [233%N; 8364%N; 128512%N]
  = Some [195; 169; 226; 130; 172; 240; 159; 152; 128]%N
  /\ [233%N; 8364%N; 128512%N] <> []
  /\ decode_input (Some [195; 169; 226; 130; 172; 240; 159; 152; 128]%N)
     = Ok (Some [233%N; 8364%N; 128512%N]).
Proof.
  assert (Hn : [233%N; 8364%N; 128512%N] <> []) by discriminate.
  split; [reflexivity|]. split; [exact Hn|].
  exact (piped_text_round_trip [233%N; 8364%N; 128512%N]
           [195; 169; 226; 130; 172; 240; 159; 152; 128]%N eq_refl Hn).
Defined.

(** X21: what a returning [exec_command] gives back is valid UTF-8: the
    output bytes decode to the output lines joined by newlines with the
    buffered host text as the last line, and the error bytes to the
    error records joined the same way with the buffered host error
    text. *)
Theorem returned_bytes_decode T cmd in_data c w rc out err :
  result_of (exec_command T cmd in_data c w) = Ok (rc, out, err) ->
  exists r,
    pipeline_run T cmd in_data c w = Some r /\
    let ui := snd (deliver (events r) (sink c)) in
    utf8_decode out
    = Some (join [NL] (append_nonempty (outputs_of (events r)) (stdout ui)))
    /\ utf8_decode err
       = Some (join [NL] (append_nonempty (errors_of (events r))
                            (stderr ui))).
Proof.
  intros H. apply exec_command_ok in H as (r & Hr & _ & _ & Ho & He & _).
  exists r. split; [exact Hr|]. cbv zeta.
  split; apply utf8_round_trip; assumption.
Qed.

Lemma returned_bytes_decode_witness :
  let T := scripted interleaved in
  let c := psrp_local local_defaults in
  let out := lit "a" ++ [NL] ++ lit "b" ++ [NL] ++ lit "first" ++ [NL]
             ++ lit "last" in
  let err := lit "E" ++ [NL] ++ lit "e1" ++ [NL] in
  result_of (exec_command T encoded_dir None c world0) = Ok (1%Z, out, err)
  /\ exists r,
       pipeline_run T encoded_dir None c world0 = Some r /\
       let ui := snd (deliver (events r) (sink c)) in
       utf8_decode out
       = Some (join [NL] (append_nonempty (outputs_of (events r))
                            (stdout ui)))
       /\ utf8_decode err
          = Some (join [NL] (append_nonempty (errors_of (events r))
                               (stderr ui))).
Proof.
  cbv zeta. split; [reflexivity|].
  exact (returned_bytes_decode (scripted interleaved) encoded_dir None
           (psrp_local local_defaults) world0 1%Z _ _ eq_refl).
Defined.

(** ** Scripts an encoded command can carry *)

Section Encoded.

Local Open Scope N_scope.

Local Ltac Zify.zify_post_hook ::= Z.to_euclidean_division_equations.

Lemma list_ind3 (P : list N -> Prop) :
  P [] -> (forall a, P [a]) -> (forall a b, P [a; b]) ->
  (forall a b c r, P r -> P (a :: b :: c :: r)) ->
  forall s, P s.
Proof.
  intros H0 H1 H2 H3.
  fix IH 1.
  intros [|a [|b [|c r]]].
  - exact H0.
  - apply H1.
  - apply H2.
  - apply H3. apply IH.
Qed.

Lemma b64_char_ok v :
  v < 64 -> is_b64 (b64_char v) = true /\ b64_val (b64_char v) = v.
Proof.
  intros H.
  assert (A : forallb (fun x => is_b64 (b64_char x)
                                && (b64_val (b64_char x) =? x))
                (map N.of_nat (seq 0 64)) = true) by (vm_compute; reflexivity).
  rewrite forallb_forall in A.
  assert (Hin : In v (map N.of_nat (seq 0 64))).
  { apply in_map_iff. exists (N.to_nat v). split; [lia|].
    apply in_seq. lia. }
  apply A in Hin. apply andb_prop in Hin as [H1 H2].
  apply N.eqb_eq in H2. auto.
Qed.

Lemma b64decode_cons4 a b c d r :
  b64decode (a :: b :: c :: d :: r) =
  if is_b64 a && is_b64 b then
    let n := b64_val a * 64 + b64_val b in
    if is_b64 c && is_b64 d then
      let m := (n * 64 + b64_val c) * 64 + b64_val d in
      option_map
        (fun t => m / 65536 :: (m / 256) mod 256 :: m mod 256 :: t)
        (b64decode r)
    else if is_b64 c && (d =? PAD) then
      match r with
      | [] => let m := n * 64 + b64_val c in
              Some [m / 1024; (m / 4) mod 256]
      | _ => None
      end
    else if (c =? PAD) && (d =? PAD) then
      match r with
      | [] => Some [n / 16]
      | _ => None
      end
    else None
  else None.
Proof. reflexivity. Qed.

Lemma base64_text_cons4 a b c d r :
  base64_text (a :: b :: c :: d :: r) =
  is_b64 a && is_b64 b
  && ((is_b64 c && is_b64 d && base64_text r)
      || (match r with [] => true | _ => false end
          && ((is_b64 c && (d =? PAD)) || ((c =? PAD) && (d =? PAD))))).
Proof. reflexivity. Qed.

Lemma b64encode_cons3 a b c r :
  b64encode (a :: b :: c :: r) =
  b64_char (((a * 256 + b) * 256 + c) / 262144)
  :: b64_char ((((a * 256 + b) * 256 + c) / 4096) mod 64)
  :: b64_char ((((a * 256 + b) * 256 + c) / 64) mod 64)
  :: b64_char (((a * 256 + b) * 256 + c) mod 64)
  :: b64encode r.
Proof. reflexivity. Qed.

Lemma b64_round_trip bs :
  Forall (fun b => b < 256) bs ->
  b64decode (b64encode bs) = Some bs /\ base64_text (b64encode bs) = true.
Proof.
  induction bs as [|a|a b|a b c r IH] using list_ind3; intros Hb.
  - split; reflexivity.
  - inversion Hb as [|? ? Ha _]; subst.
    change (b64encode [a])
      with [b64_char (a * 16 / 64); b64_char ((a * 16) mod 64); PAD; PAD].
    rewrite b64decode_cons4, base64_text_cons4.
    destruct (b64_char_ok (a * 16 / 64)) as [I1 V1]; [lia|].
    destruct (b64_char_ok ((a * 16) mod 64)) as [I2 V2]; [lia|].
    rewrite I1, I2, V1, V2.
    replace (is_b64 PAD) with false by reflexivity.
    rewrite N.eqb_refl. cbn [andb orb]. cbv zeta. split; [|reflexivity].
    f_equal. f_equal. lia.
  - inversion Hb as [|? ? Ha Hb']; subst.
    inversion Hb' as [|? ? Hb0 _]; subst.
    change (b64encode [a; b])
      with [b64_char ((a * 256 + b) * 4 / 4096);
            b64_char (((a * 256 + b) * 4 / 64) mod 64);
            b64_char (((a * 256 + b) * 4) mod 64); PAD].
    rewrite b64decode_cons4, base64_text_cons4.
    destruct (b64_char_ok ((a * 256 + b) * 4 / 4096)) as [I1 V1]; [lia|].
    destruct (b64_char_ok (((a * 256 + b) * 4 / 64) mod 64)) as [I2 V2];
      [lia|].
    destruct (b64_char_ok (((a * 256 + b) * 4) mod 64)) as [I3 V3]; [lia|].
    rewrite I1, I2, I3, V1, V2, V3.
    replace (is_b64 PAD) with false by reflexivity.
    rewrite N.eqb_refl. cbn [andb orb]. cbv zeta. split; [|reflexivity].
    f_equal. f_equal; [lia|]. f_equal. lia.
  - inversion Hb as [|? ? Ha Hb1]; subst.
    inversion Hb1 as [|? ? Hb0 Hb2]; subst.
    inversion Hb2 as [|? ? Hc Hr]; subst.
    destruct (IH Hr) as [IHd IHt].
    rewrite b64encode_cons3, b64decode_cons4, base64_text_cons4.
    set (m := (a * 256 + b) * 256 + c).
    assert (Hm : m < 16777216) by (unfold m; lia).
    destruct (b64_char_ok (m / 262144)) as [I1 V1]; [lia|].
    destruct (b64_char_ok ((m / 4096) mod 64)) as [I2 V2]; [lia|].
    destruct (b64_char_ok ((m / 64) mod 64)) as [I3 V3]; [lia|].
    destruct (b64_char_ok (m mod 64)) as [I4 V4]; [lia|].
    rewrite I1, I2, I3, I4, V1, V2, V3, V4, IHd, IHt.
    cbn [andb orb option_map]. cbv zeta. split; [|reflexivity].
    replace ((((m / 262144 * 64 + (m / 4096) mod 64) * 64
               + (m / 64) mod 64) * 64) + m mod 64) with m by lia.
    f_equal. unfold m. f_equal; [lia|]. f_equal; [lia|]. f_equal. lia.
Qed.

Lemma units_le_round_trip us :
  Forall (fun u => u < 65536) us ->
  code_units (units_le us) = Some us
  /\ Forall (fun b => b < 256) (units_le us).
Proof.
  induction us as [|u us IH]; intros H.
  - split; [reflexivity|constructor].
  - inversion H as [|? ? Hu Hr]; subst. destruct (IH Hr) as [IHc IHb].
    change (units_le (u :: us)) with (u mod 256 :: u / 256 :: units_le us).
    split.
    + change (code_units (u mod 256 :: u / 256 :: units_le us))
        with (option_map (cons (u mod 256 + 256 * (u / 256)))
                (code_units (units_le us))).
      rewrite IHc. cbn [option_map]. f_equal. f_equal. lia.
    + constructor; [lia|]. constructor; [lia|]. exact IHb.
Qed.

Lemma utf16_chars_cons u r :
  utf16_chars (u :: r) =
  if between 55296 56319 u then
    match r with
    | l :: r' =>
      if between 56320 57343 l
      then option_map
             (cons (65536 + (u - 55296) * 1024 + (l - 56320)))
             (utf16_chars r')
      else None
    | [] => None
    end
  else if between 56320 57343 u then None
  else option_map (cons u) (utf16_chars r).
Proof. reflexivity. Qed.

Lemma utf16_units_round_trip s :
  scalar_text s = true ->
  utf16_chars (utf16_units s) = Some s
  /\ Forall (fun u => u < 65536) (utf16_units s).
Proof.
  induction s as [|ch s IH]; intros H.
  - split; [reflexivity|constructor].
  - cbn [scalar_text forallb] in H. apply andb_prop in H as [Hc Hs].
    apply andb_prop in Hc as [Hlt Hns]. apply N.ltb_lt in Hlt.
    apply negb_true_iff in Hns.
    assert (Hrange : ch < 55296 \/ 57343 < ch).
    { unfold between in Hns. apply andb_false_iff in Hns as [E|E];
        apply N.leb_gt in E; lia. }
    destruct (IH Hs) as [IHc IHu].
    cbn [utf16_units]. destruct (N.ltb_spec ch 65536) as [Hbmp|Hsup].
    + change ([ch] ++ utf16_units s) with (ch :: utf16_units s).
      rewrite utf16_chars_cons.
      assert (B1 : between 55296 56319 ch = false).
      { destruct Hrange; [apply between_false_low|apply between_false_high];
          lia. }
      assert (B2 : between 56320 57343 ch = false).
      { destruct Hrange; [apply between_false_low|apply between_false_high];
          lia. }
      rewrite B1, B2, IHc. split; [reflexivity|].
      constructor; assumption.
    + change ([55296 + (ch - 65536) / 1024; 56320 + (ch - 65536) mod 1024]
              ++ utf16_units s)
        with ((55296 + (ch - 65536) / 1024)
              :: (56320 + (ch - 65536) mod 1024) :: utf16_units s).
      rewrite utf16_chars_cons.
      rewrite (between_true 55296 56319 (55296 + (ch - 65536) / 1024))
        by lia.
      rewrite (between_true 56320 57343 (56320 + (ch - 65536) mod 1024))
        by lia.
      rewrite IHc. split.
      * cbn [option_map]. f_equal. f_equal. lia.
      * constructor; [lia|]. constructor; [lia|]. exact IHu.
Qed.

Lemma decode_script_encoded s :
  scalar_text s = true ->
  base64_text (b64encode (utf16le_encode s)) = true
  /\ decode_script (b64encode (utf16le_encode s)) = Ok s.
Proof.
  intros H. destruct (utf16_units_round_trip s H) as [Hc Hu].
  destruct (units_le_round_trip (utf16_units s) Hu) as [Hd Hb].
  destruct (b64_round_trip (utf16le_encode s) Hb) as [Hr Ht].
  split; [exact Ht|].
  unfold decode_script. rewrite Hr. unfold utf16le_decode.
  unfold utf16le_encode. rewrite Hd, Hc. reflexivity.
Qed.

End Encoded.

(** X22: every script can be passed as an encoded command.  For each
    text of Unicode scalar values there is a base64 payload such that,
    after any prefix, [-EncodedCommand] and that payload give exactly
    this text as the script, with nothing added. *)
Theorem every_script_can_be_encoded s :
  scalar_text s = true ->
  exists payload,
    base64_text payload = true
    /\ forall prefix,
         script_for (prefix ++ lit "-EncodedCommand " ++ payload) = Ok s.
Proof.
  intros H. destruct (decode_script_encoded s H) as [Ht Hd].
  exists (b64encode (utf16le_encode s)).
  split; [exact Ht|]. intros prefix.
  change (lit "-EncodedCommand ") with KEYWORD.
  rewrite (script_for_encoded prefix _ Ht). exact Hd.
Qed.

Lemma every_script_can_be_encoded_witness :
  scalar_text (lit "dir") = true
  /\ exists payload,
       base64_text payload = true
       /\ forall prefix,
            script_for (prefix ++ lit "-EncodedCommand " ++ payload)
            = Ok (lit "dir").
Proof.
  split; [reflexivity|].
  exact (every_script_can_be_encoded (lit "dir") eq_refl).
Defined.

(** ** A pipeline that fails *)

(** X23: when the pipeline itself raises, [exec_command] raises the same
    error unchanged.  The invocation has been made, the session is as
    the accessor left it, and the sink is not reset: it holds what it
    held before the call followed by whatever the callbacks of the
    failed run wrote, and the exit code they set. *)
Theorem failed_pipeline_keeps_sink
    T cmd in_data c w input_data h script r e :
  decode_input in_data = Ok input_data ->
  result_of (_get_runspace T c w) = Ok h ->
  script_for cmd = Ok script ->
  (is_encoded_command cmd = true -> shebang_text input_data = None) ->
  invoke_result T (world_of (_get_runspace T c w)) h [script] input_data = r ->
  failure r = Some e ->
  result_of (exec_command T cmd in_data c w) = Raise e
  /\ sink (conn_of (exec_command T cmd in_data c w))
     = deliver (events r) (sink c)
  /\ same_session (conn_of (exec_command T cmd in_data c w))
       (conn_of (_get_runspace T c w))
  /\ calls (world_of (exec_command T cmd in_data c w))
     = calls (world_of (_get_runspace T c w))
       ++ [PipelineInvoke h [script] input_data].
Proof.
  intros Hi Hg Hs Hb Hr Hf.
  pose proof (_get_runspace_frame T c w) as F. cbv zeta in F.
  destruct F as (Fs & _).
  rewrite exec_command_run, Hi.
  destruct (_get_runspace T c w) as [[[h'|e'] c1] w1]; [|discriminate].
  cbn [result_of conn_of world_of fst snd] in *.
  injection Hg as ->. rewrite Hs.
  assert (R :
    result_of (run_pipeline T h script input_data c1 w1) = Raise e
    /\ sink (conn_of (run_pipeline T h script input_data c1 w1))
       = deliver (events r) (sink c)
    /\ same_session (conn_of (run_pipeline T h script input_data c1 w1)) c1
    /\ calls (world_of (run_pipeline T h script input_data c1 w1))
       = calls w1 ++ [PipelineInvoke h [script] input_data]).
  { rewrite world_of_run_pipeline.
    split; [|split; [|split; [apply run_pipeline_session|reflexivity]]];
      unfold run_pipeline; cbv zeta; rewrite Hr, Hf, Fs.
    - reflexivity.
    - destruct (deliver (events r) (sink c)). reflexivity. }
  unfold is_encoded_command in Hb.
  destruct (search cmd); [rewrite (Hb eq_refl)|]; exact R.
Qed.

Lemma failed_pipeline_keeps_sink_witness :
  let T := scripted noisy_failure in
  let c := psrp_local local_defaults in
  let script := lit "Get-Item x" ++ [NL] ++ lit "exit $LASTEXITCODE" in
  let e := TransportError (lit "PipelineFailed") in
  decode_input None = Ok None
  /\ result_of (_get_runspace T c world0) = Ok 0
  /\ script_for (lit "Get-Item x") = Ok script
  /\ (is_encoded_command (lit "Get-Item x") = true ->
      shebang_text None = None)
  /\ invoke_result T (world_of (_get_runspace T c world0)) 0 [script] None
     = noisy_failure
  /\ failure noisy_failure = Some e
  /\ result_of (exec_command T (lit "Get-Item x") None c world0) = Raise e
  /\ sink (conn_of (exec_command T (lit "Get-Item x") None c world0))
     = deliver (events noisy_failure) (sink c)
  /\ same_session (conn_of (exec_command T (lit "Get-Item x") None c world0))
       (conn_of (_get_runspace T c world0))
  /\ calls (world_of (exec_command T (lit "Get-Item x") None c world0))
     = calls (world_of (_get_runspace T c world0))
       ++ [PipelineInvoke 0 [script] None].
Proof.
  cbv zeta.
  assert (Hb : is_encoded_command (lit "Get-Item x") = true ->
               shebang_text None = None) by reflexivity.
  do 3 (split; [reflexivity|]). split; [exact Hb|].
  do 2 (split; [reflexivity|]).
  exact (failed_pipeline_keeps_sink (scripted noisy_failure)
           (lit "Get-Item x") None (psrp_local local_defaults) world0
           None 0
           (lit "Get-Item x" ++ [NL] ++ lit "exit $LASTEXITCODE")
           noisy_failure (TransportError (lit "PipelineFailed"))
           eq_refl eq_refl eq_refl Hb eq_refl eq_refl).
Defined.

(** ** Decoding, read backwards *)

Section Decoded.

Local Open Scope N_scope.

Local Ltac Zify.zify_post_hook ::= Z.to_euclidean_division_equations.

Lemma between_iff lo hi x : between lo hi x = true <-> lo <= x /\ x <= hi.
Proof.
  unfold between. rewrite andb_true_iff, !N.leb_le. reflexivity.
Qed.

Lemma between_out lo hi x : between lo hi x = false -> x < lo \/ hi < x.
Proof.
  unfold between. intros H. apply andb_false_iff in H as [H|H];
    apply N.leb_gt in H; auto.
Qed.

Lemma b64_val_bound ch : b64_val ch < 64.
Proof.
  unfold b64_val.
  destruct (between 65 90 ch) eqn:B1; [apply between_iff in B1; lia|].
  destruct (between 97 122 ch) eqn:B2; [apply between_iff in B2; lia|].
  destruct (between 48 57 ch) eqn:B3; [apply between_iff in B3; lia|].
  destruct (ch =? 43); lia.
Qed.

(** What base64 decoding gives is a sequence of octets. *)
Lemma b64decode_octets payload : forall raw,
  b64decode payload = Some raw -> Forall (fun b => b < 256) raw.
Proof.
  induction payload as [| | | |a b c d r IH] using list_ind4; intros raw;
    try discriminate.
  - intros [= <-]. constructor.
  - rewrite b64decode_cons4.
    pose proof (b64_val_bound a). pose proof (b64_val_bound b).
    pose proof (b64_val_bound c). pose proof (b64_val_bound d).
    destruct (is_b64 a && is_b64 b); [|discriminate]. cbv zeta.
    destruct (is_b64 c && is_b64 d).
    + destruct (b64decode r) as [t|]; [|discriminate].
      cbn [option_map]. intros E. apply some_eq in E. subst raw.
      constructor; [lia|]. constructor; [lia|]. constructor; [lia|].
      apply IH. reflexivity.
    + destruct (is_b64 c && (d =? PAD)).
      * destruct r; [|discriminate]. intros E. apply some_eq in E.
        subst raw. constructor; [lia|]. constructor; [lia|]. constructor.
      * destruct ((c =? PAD) && (d =? PAD)); [|discriminate].
        destruct r; [|discriminate]. intros E. apply some_eq in E.
        subst raw. constructor; [lia|]. constructor.
Qed.

Lemma cons_eq (x y : N) l l' : x :: l = y :: l' -> x = y /\ l = l'.
Proof. intros [= -> ->]. auto. Qed.

Lemma code_units_inv us : forall raw,
  code_units raw = Some us -> Forall (fun b => b < 256) raw ->
  units_le us = raw /\ Forall (fun u => u < 65536) us.
Proof.
  induction us as [|u us IH]; intros [|lo [|hi r]]; try discriminate.
  - intros _ _. split; [reflexivity|constructor].
  - change (code_units (lo :: hi :: r))
      with (option_map (cons (lo + 256 * hi)) (code_units r)).
    destruct (code_units r); discriminate.
  - change (code_units (lo :: hi :: r))
      with (option_map (cons (lo + 256 * hi)) (code_units r)).
    destruct (code_units r) as [us'|] eqn:E; [|discriminate].
    cbn [option_map]. intros E'. apply some_eq in E'.
    apply cons_eq in E' as [E1 E2]. subst u us'. intros Hb.
    inversion Hb as [|? ? Hlo Hb']; subst.
    inversion Hb' as [|? ? Hhi Hr]; subst.
    destruct (IH r E Hr) as [IHu IHf].
    change (units_le ((lo + 256 * hi) :: us))
      with ((lo + 256 * hi) mod 256 :: (lo + 256 * hi) / 256 :: units_le us).
    rewrite IHu. split.
    + f_equal; [lia|]. f_equal. lia.
    + constructor; [lia|exact IHf].
Qed.

Lemma utf16_chars_inv n : forall us s,
  (List.length us <= n)%nat ->
  utf16_chars us = Some s -> Forall (fun u => u < 65536) us ->
  scalar_text s = true /\ utf16_units s = us.
Proof.
  induction n as [|n IH]; intros [|u r] s Hn.
  - intros [= <-] _. split; reflexivity.
  - cbn in Hn. lia.
  - intros [= <-] _. split; reflexivity.
  - rewrite utf16_chars_cons. intros E Hu.
    inversion Hu as [|? ? Hu0 Hr]; subst.
    destruct (between 55296 56319 u) eqn:B1.
    + apply between_iff in B1.
      destruct r as [|l r']; [discriminate|].
      inversion Hr as [|? ? Hl Hr']; subst.
      destruct (between 56320 57343 l) eqn:B2; [|discriminate].
      apply between_iff in B2.
      destruct (utf16_chars r') as [s'|] eqn:E'; [|discriminate].
      cbn [option_map] in E. apply some_eq in E. subst s.
      assert (Hn' : (List.length r' <= n)%nat) by (cbn in Hn; lia).
      destruct (IH r' s' Hn' E' Hr') as [IHs IHu].
      set (ch := 65536 + (u - 55296) * 1024 + (l - 56320)).
      assert (Hch : 65536 <= ch /\ ch < 1114112) by (unfold ch; lia).
      split.
      * cbn [scalar_text forallb]. fold (scalar_text s'). rewrite IHs.
        rewrite (proj2 (N.ltb_lt ch 1114112)) by lia.
        rewrite (between_false_high 55296 57343 ch) by lia. reflexivity.
      * cbn [utf16_units]. rewrite (ltb_false ch 65536) by lia.
        rewrite IHu.
        change ([55296 + (ch - 65536) / 1024; 56320 + (ch - 65536) mod 1024]
                ++ r')
          with ((55296 + (ch - 65536) / 1024)
                :: (56320 + (ch - 65536) mod 1024) :: r').
        f_equal; [unfold ch; lia|]. f_equal. unfold ch. lia.
    + apply between_out in B1.
      destruct (between 56320 57343 u) eqn:B2; [discriminate|].
      apply between_out in B2.
      destruct (utf16_chars r) as [s'|] eqn:E'; [|discriminate].
      cbn [option_map] in E. apply some_eq in E. subst s.
      assert (Hn' : (List.length r <= n)%nat) by (cbn in Hn; lia).
      destruct (IH r s' Hn' E' Hr) as [IHs IHu].
      split.
      * cbn [scalar_text forallb]. fold (scalar_text s'). rewrite IHs.
        rewrite (proj2 (N.ltb_lt u 1114112)) by lia.
        assert (B : between 55296 57343 u = false).
        { destruct B1; [apply between_false_low; lia|].
          destruct B2; [lia|apply between_false_high; lia]. }
        rewrite B. reflexivity.
      * cbn [utf16_units]. rewrite (proj2 (N.ltb_lt u 65536)) by lia.
        rewrite IHu. reflexivity.
Qed.

(** A decoded script is a text of scalar values, and the bytes it was
    decoded from are its UTF-16LE encoding. *)
Lemma decode_script_sound payload script :
  decode_script payload = Ok script ->
  exists raw,
    b64decode payload = Some raw /\ utf16le_decode raw = Some script
    /\ scalar_text script = true /\ utf16le_encode script = raw.
Proof.
  unfold decode_script.
  destruct (b64decode payload) as [raw|] eqn:Eb; [|discriminate].
  destruct (utf16le_decode raw) as [text|] eqn:Eu; [|discriminate].
  intros [= <-]. exists raw. split; [reflexivity|]. split; [exact Eu|].
  pose proof (b64decode_octets payload raw Eb) as Ho.
  unfold utf16le_decode in Eu.
  destruct (code_units raw) as [us|] eqn:Ec; [|discriminate].
  destruct (code_units_inv us raw Ec Ho) as [Hle Hf].
  destruct (utf16_chars_inv (List.length us) us text (le_n _) Eu Hf)
    as [Hs Hu].
  split; [exact Hs|]. unfold utf16le_encode. rewrite Hu. exact Hle.
Qed.

End Decoded.

(** ** The script submitted to the pipeline *)

(** The world after [exec_command]: one invocation more than after the
    accessor when the call reaches the pipeline, none otherwise. *)
Lemma exec_command_world T cmd in_data c w :
  match pipeline_run T cmd in_data c w with
  | Some r =>
    exists h input_data script,
      result_of (_get_runspace T c w) = Ok h
      /\ decode_input in_data = Ok input_data
      /\ script_for cmd = Ok script
      /\ world_of (exec_command T cmd in_data c w)
         = record_call (PipelineInvoke h [script] input_data)
             (world_of (_get_runspace T c w))
  | None =>
    world_of (exec_command T cmd in_data c w) = w
    \/ world_of (exec_command T cmd in_data c w)
       = world_of (_get_runspace T c w)
  end.
Proof.
  rewrite exec_command_run. unfold pipeline_run.
  destruct (decode_input in_data) as [input_data|e]; [|auto].
  destruct (_get_runspace T c w) as [[[h|e] c1] w1];
    cbn [result_of conn_of world_of fst snd]; [|auto].
  destruct (script_for cmd) as [script|e]; [|auto].
  destruct (search cmd); [destruct (shebang_text input_data)|];
    cbn [world_of snd]; auto;
    exists h, input_data, script; rewrite world_of_run_pipeline; auto.
Qed.

(** C2: the script [exec_command] submits.  A call that reaches the
    pipeline appends exactly one invocation to the calls made so far,
    on the runspace the accessor gave, with the decoded input and one
    script; a call that does not reach it invokes nothing.  For a
    command the pattern does not match the script is the command, a
    newline and [exit $LASTEXITCODE].  For a command that ends in
    [-EncodedCommand] and a base64 payload the script is the payload
    decoded from base64 and then from UTF-16LE and nothing else: it is a
    text of scalar values and the decoded bytes are its UTF-16LE
    encoding.  And the base64 of the UTF-16LE encoding of any such text,
    after the keyword, gives that text as the script. *)
Theorem script_submitted T cmd in_data c w :
  (forall r,
     pipeline_run T cmd in_data c w = Some r ->
     exists h input_data script,
       result_of (_get_runspace T c w) = Ok h
       /\ decode_input in_data = Ok input_data
       /\ script_for cmd = Ok script
       /\ calls (world_of (exec_command T cmd in_data c w))
          = calls (world_of (_get_runspace T c w))
            ++ [PipelineInvoke h [script] input_data]
       /\ (is_encoded_command cmd = false ->
           script = cmd ++ [NL] ++ lit "exit $LASTEXITCODE")
       /\ (forall prefix payload,
             cmd = prefix ++ lit "-EncodedCommand " ++ payload ->
             base64_text payload = true ->
             exists raw,
               b64decode payload = Some raw
               /\ utf16le_decode raw = Some script
               /\ scalar_text script = true
               /\ utf16le_encode script = raw))
  /\ (pipeline_run T cmd in_data c w = None ->
      filter is_invoke (calls (world_of (exec_command T cmd in_data c w)))
      = filter is_invoke (calls w))
  /\ (forall prefix s,
        scalar_text s = true ->
        script_for (prefix ++ lit "-EncodedCommand "
                    ++ b64encode (utf16le_encode s)) = Ok s).
Proof.
  pose proof (exec_command_world T cmd in_data c w) as W.
  split; [|split].
  - intros r Hr. rewrite Hr in W.
    destruct W as (h & input_data & script & Hg & Hd & Hs & Hw).
    exists h, input_data, script.
    split; [exact Hg|]. split; [exact Hd|]. split; [exact Hs|].
    split; [rewrite Hw; reflexivity|]. split.
    + intros Hplain. rewrite (script_for_plain cmd Hplain) in Hs.
      injection Hs as <-. reflexivity.
    + intros prefix payload -> Hp.
      change (lit "-EncodedCommand ") with KEYWORD in Hs.
      rewrite (script_for_encoded prefix payload Hp) in Hs.
      exact (decode_script_sound payload script Hs).
  - intros Hn. rewrite Hn in W. destruct W as [-> | ->]; [reflexivity|].
    pose proof (_get_runspace_frame T c w) as F. cbv zeta in F.
    exact (proj2 (proj2 (proj2 F))).
  - intros prefix s Hs.
    destruct (decode_script_encoded s Hs) as [Ht Hd].
    change (lit "-EncodedCommand ") with KEYWORD.
    rewrite (script_for_encoded prefix _ Ht). exact Hd.
Qed.

Lemma script_submitted_witness :
  let T := scripted silent in
  let first :=
    exec_command T encoded_smiley None (psrp_local local_defaults) world0 in
  let c := conn_of first in
  let w := world_of first in
  pipeline_run T encoded_smiley None c w = Some silent
  /\ encoded_smiley
     = lit "powershell " ++ lit "-EncodedCommand " ++ lit "PdgA3g=="
  /\ base64_text (lit "PdgA3g==") = true
  /\ In (PipelineInvoke 0 [[128512%N]] None) (calls w)
  /\ calls (world_of (exec_command T encoded_smiley None c w))
     = calls w ++ [PipelineInvoke 0 [[128512%N]] None]
  /\ scalar_text [128512%N] = true
  /\ utf16le_encode [128512%N] = [61; 216; 0; 222]%N.
Proof.
  cbv zeta.
  set (T := scripted silent).
  set (c := conn_of (exec_command T encoded_smiley None
                       (psrp_local local_defaults) world0)).
  set (w := world_of (exec_command T encoded_smiley None
                        (psrp_local local_defaults) world0)).
  assert (Hr : pipeline_run T encoded_smiley None c w = Some silent)
    by reflexivity.
  assert (Hc : encoded_smiley
               = lit "powershell " ++ lit "-EncodedCommand "
                 ++ lit "PdgA3g==") by reflexivity.
  assert (Hp : base64_text (lit "PdgA3g==") = true) by reflexivity.
  destruct (script_submitted T encoded_smiley None c w) as (S1 & _ & _).
  destruct (S1 silent Hr)
    as (h & input_data & script & Hg & Hd & _ & Hcalls & _ & Henc).
  destruct (Henc (lit "powershell ") (lit "PdgA3g==") Hc Hp)
    as (raw & Hb & Hu & Hs & He).
  assert (Hraw : raw = [61; 216; 0; 222]%N).
  { apply some_eq. rewrite <- Hb. reflexivity. }
  rewrite Hraw in Hu, He. clear Hb Hraw raw.
  assert (Hscript : script = [128512%N]).
  { apply some_eq. rewrite <- Hu. reflexivity. }
  rewrite Hscript in Hcalls, Hs, He. clear Hu Henc Hscript script.
  assert (Hh : h = 0).
  { assert (E : Ok (A := Handle) h = Ok 0) by (rewrite <- Hg; reflexivity).
    injection E as ->. reflexivity. }
  rewrite Hh in Hcalls. clear Hg Hh h.
  assert (Hin : input_data = None).
  { assert (E : Ok (A := option pystr) input_data = Ok None)
      by (rewrite <- Hd; reflexivity).
    injection E as ->. reflexivity. }
  rewrite Hin in Hcalls. clear Hd Hin input_data.
  split; [exact Hr|]. split; [exact Hc|]. split; [exact Hp|].
  split; [right; right; left; reflexivity|].
  split; [exact Hcalls|]. split; [exact Hs|exact He].
Defined.

(** ** Interpreter lines, for every command *)

(** C3, as the code has it, for input that begins with [#!] once the
    runspace has been obtained.  An encoded command whose script decodes
    is refused: the error names the interpreter taken from the first
    line of the input and the transport, no pipeline is invoked, the
    call leaves the connection and the transport exactly as the accessor
    left them, so the sink is as it was and a connection that already
    held a runspace is unchanged altogether.  A command that is not
    encoded is run as any other: its outcome is that of the pipeline
    run on the command with the exit statement, with the input piped
    in, and that one invocation is made. *)
Theorem shebang_rejected T cmd plain payload script in_data text c w h :
  search cmd = Some payload ->
  decode_script payload = Ok script ->
  is_encoded_command plain = false ->
  decode_input in_data = Ok (Some text) ->
  starts_with_shebang text = true ->
  result_of (_get_runspace T c w) = Ok h ->
  (result_of (exec_command T cmd in_data c w)
   = Raise
       (AnsibleError
          (lit "cannot run the interpreter '" ++ skipn 2 (first_line text)
           ++ lit "' on the " ++ transport c ++ lit " connection plugin"))
   /\ conn_of (exec_command T cmd in_data c w)
      = conn_of (_get_runspace T c w)
   /\ world_of (exec_command T cmd in_data c w)
      = world_of (_get_runspace T c w)
   /\ filter is_invoke (calls (world_of (exec_command T cmd in_data c w)))
      = filter is_invoke (calls w)
   /\ sink (conn_of (exec_command T cmd in_data c w)) = sink c
   /\ (_runspace c <> None ->
       conn_of (exec_command T cmd in_data c w) = c
       /\ world_of (exec_command T cmd in_data c w) = w))
  /\ (exec_command T plain in_data c w
      = run_pipeline T h (plain ++ [NL] ++ lit "exit $LASTEXITCODE")
          (Some text) (conn_of (_get_runspace T c w))
          (world_of (_get_runspace T c w))
      /\ calls (world_of (exec_command T plain in_data c w))
         = calls (world_of (_get_runspace T c w))
           ++ [PipelineInvoke h
                 [plain ++ [NL] ++ lit "exit $LASTEXITCODE"] (Some text)]).
Proof.
  intros Hs Hd Hplain Hi Hb Hg.
  pose proof (_get_runspace_needs_psrp T c w h Hg) as HP.
  pose proof (_get_runspace_frame T c w) as F. cbv zeta in F.
  destruct F as (Fs & Ft & _ & Fc).
  assert (Hheld : forall h0, _runspace c = Some h0 ->
            _get_runspace T c w = (Ok h0, c, w)).
  { intros h0 E. apply _get_runspace_held; assumption. }
  split.
  - rewrite exec_command_run, Hi. unfold script_for. rewrite Hs, Hd.
    rewrite (shebang_text_started text Hb).
    destruct (_get_runspace T c w) as [[[h'|e] c1] w1] eqn:G;
      [|discriminate].
    cbn [result_of conn_of world_of fst snd] in *.
    rewrite Ft. repeat split; auto.
    + destruct (_runspace c) as [h0|]; [|contradiction].
      specialize (Hheld h0 eq_refl). congruence.
    + destruct (_runspace c) as [h0|]; [|contradiction].
      specialize (Hheld h0 eq_refl). congruence.
  - assert (E : exec_command T plain in_data c w
      = run_pipeline T h (plain ++ [NL] ++ lit "exit $LASTEXITCODE")
          (Some text) (conn_of (_get_runspace T c w))
          (world_of (_get_runspace T c w))).
    { rewrite exec_command_run, Hi.
      rewrite (script_for_plain plain Hplain).
      unfold is_encoded_command in Hplain.
      destruct (_get_runspace T c w) as [[[h'|e] c1] w1]; [|discriminate].
      cbn [result_of conn_of world_of fst snd] in *.
      injection Hg as ->.
      destruct (search plain); [discriminate|]. reflexivity. }
    split; [exact E|]. rewrite E, world_of_run_pipeline. reflexivity.
Qed.

Lemma shebang_rejected_witness :
  let T := scripted silent in
  let c := opened_local in
  let w := opened_world in
  let refused := exec_command T encoded_dir (Some shebang_payload) c w in
  let run := exec_command T (lit "python -") (Some shebang_payload) c w in
  search encoded_dir = Some (lit "ZABpAHIA")
  /\ decode_script (lit "ZABpAHIA") = Ok (lit "dir")
  /\ is_encoded_command (lit "python -") = false
  /\ decode_input (Some shebang_payload) = Ok (Some shebang_payload)
  /\ starts_with_shebang shebang_payload = true
  /\ result_of (_get_runspace T c w) = Ok 0
  /\ _runspace c <> None
  /\ result_of refused
     = Raise
         (AnsibleError
            (lit "cannot run the interpreter '/usr/bin/python' on the "
             ++ lit "jborean93.psrp.psrp_local connection plugin"))
  /\ conn_of refused = c /\ world_of refused = w
  /\ filter is_invoke (calls (world_of refused)) = filter is_invoke (calls w)
  /\ sink (conn_of refused) = sink c
  /\ run = run_pipeline T 0 (lit "python -" ++ [NL]
                             ++ lit "exit $LASTEXITCODE")
             (Some shebang_payload) c w
  /\ calls (world_of run)
     = calls w
       ++ [PipelineInvoke 0
             [lit "python -" ++ [NL] ++ lit "exit $LASTEXITCODE"]
             (Some shebang_payload)].
Proof.
  cbv zeta.
  assert (Hopen : _runspace opened_local <> None) by discriminate.
  destruct (shebang_rejected (scripted silent) encoded_dir (lit "python -")
              (lit "ZABpAHIA") (lit "dir") (Some shebang_payload)
              shebang_payload opened_local opened_world 0
              eq_refl eq_refl eq_refl eq_refl eq_refl eq_refl)
    as ((Hres & _ & _ & Hinv & Hsink & Hsame) & (Hrun & Hcalls)).
  destruct (Hsame Hopen) as [Hconn Hworld].
  do 6 (split; [reflexivity|]). split; [exact Hopen|].
  split; [exact Hres|]. split; [exact Hconn|]. split; [exact Hworld|].
  split; [exact Hinv|]. split; [exact Hsink|].
  split; [exact Hrun|exact Hcalls].
Defined.

(** ** The sink once the pipeline has returned *)

(** X24: whenever the pipeline invocation itself returned, the sink is
    empty with exit code 0 after [exec_command], whether the call then
    returns or fails to encode the collected text. *)
Theorem sink_reset_once_pipeline_returned T cmd in_data c w r :
  pipeline_run T cmd in_data c w = Some r ->
  failure r = None ->
  sink (conn_of (exec_command T cmd in_data c w))
  = (PSHost_init, PSHostUI_init).
Proof.
  rewrite exec_command_run. unfold pipeline_run.
  destruct (decode_input in_data) as [input_data|e]; [|discriminate].
  destruct (_get_runspace T c w) as [[[h|e] c1] w1];
    cbn [result_of conn_of world_of fst snd]; [|discriminate].
  destruct (script_for cmd) as [script|e]; [|discriminate].
  assert (R : forall r0,
    Some (invoke_result T w1 h [script] input_data) = Some r0 ->
    failure r0 = None ->
    sink (conn_of (run_pipeline T h script input_data c1 w1))
    = (PSHost_init, PSHostUI_init)).
  { intros r0 E Hf. apply some_eq in E. subst r0.
    unfold run_pipeline. cbv zeta. rewrite Hf.
    destruct (utf8_encode (join [NL] (append_nonempty (outputs_of _) _)));
      [|reflexivity].
    destruct (utf8_encode (join [NL] (append_nonempty (errors_of _) _)));
      reflexivity. }
  destruct (search cmd); [destruct (shebang_text input_data)|];
    try discriminate; apply R.
Qed.

Lemma sink_reset_once_pipeline_returned_witness :
  let T := scripted surrogate_output in
  let c := psrp_local local_defaults in
  pipeline_run T (lit "Get-Item x") None c world0 = Some surrogate_output
  /\ failure surrogate_output = None
  /\ result_of (exec_command T (lit "Get-Item x") None c world0)
     = Raise UnicodeEncodeError
  /\ sink (conn_of (exec_command T (lit "Get-Item x") None c world0))
     = (PSHost_init, PSHostUI_init).
Proof.
  cbv zeta. do 3 (split; [reflexivity|]).
  exact (sink_reset_once_pipeline_returned (scripted surrogate_output)
           (lit "Get-Item x") None (psrp_local local_defaults) world0
           surrogate_output eq_refl eq_refl).
Defined.
